(** * The gallery render-cache pipeline of cocktail

    A shallow embedding of [cocktail/ui/model_gallery/delegate.py] (the item
    delegate, its render widget, the image worker) and of the resize path of
    [cocktail/ui/model_gallery/view.py], followed by the properties of the
    pipeline that the specification states.

    Conventions.
    - Python [int] is [Z]; [str] is [string]; [None]-able values are [option].
    - A Python [dict] keeps insertion order and the eviction code depends on
      it, so the three dictionaries of the delegate are association lists
      ([Dict]) with Python's update discipline.
    - The two operations that the source computes in floating point or
      leaves to Qt (the scaling target of [paint], [QImage.scaled]) are
      parameters of the development (Section [Pipeline]); so is the grid
      formula of [calculateGridSize] (Section [Grid]).
    - The geometry Qt keeps for the scratch widget, and with it the pixel
      size of the pixmaps rendered from it, is no part of the model. *)

From Stdlib Require Import ZArith QArith Qabs Qminmax Qround List Bool Ascii
  String Lia.
From stdpp Require Import base strings pretty list.

Local Open Scope string_scope.
Local Open Scope Z_scope.

(** ** Python strings *)

Module Py.

(** [str(b)] for a [bool], as an f-string renders it. *)
Definition str_bool (b : bool) : string := if b then "True" else "False".

(** [str(n)] for an [int]: decimal digits, a leading minus sign. *)
Definition str_int (n : Z) : string := pretty n.

(** [hash(n)] for an [int] on a 64-bit CPython: the value reduced modulo the
    Mersenne prime [2^61 - 1], keeping the sign, with [-1] mapped to [-2]. *)
Definition hash_modulus : Z := 2 ^ 61 - 1.

Definition hash_int (n : Z) : Z :=
  let h := Z.sgn n * (Z.abs n mod hash_modulus) in
  if h =? -1 then -2 else h.

(** [s.startswith(p)]. *)
Fixpoint startswith (p s : string) : bool :=
  match p, s with
  | EmptyString, _ => true
  | String a p', String b s' => if Ascii.eqb a b then startswith p' s' else false
  | String _ _, EmptyString => false
  end.

(** [p in s] for strings: [p] occurs in [s] at some position. *)
Fixpoint contains (p s : string) : bool :=
  startswith p s ||
  match s with
  | EmptyString => false
  | String _ s' => contains p s'
  end.

(** [s.split(c, 1)]: the parts before and after the first [c]; one part when
    [c] does not occur. *)
Fixpoint split_once (c : ascii) (s : string) : list string :=
  match s with
  | EmptyString => [EmptyString]
  | String a s' =>
      if Ascii.eqb a c then [EmptyString; s']
      else match split_once c s' with
           | [h] => [String a h]
           | h :: t => String a h :: t
           | [] => []
           end
  end.

End Py.

(** ** Python dictionaries, in insertion order *)

Definition Dict (V : Type) : Type := list (string * V).

Module dict.
Section Ops.
Context {V : Type}.

(** [list(d.keys())] *)
Definition keys (d : Dict V) : list string := map fst d.

(** [len(d)] *)
Definition len (d : Dict V) : Z := Z.of_nat (length d).

(** [d[k]], [None] standing for [KeyError] *)
Fixpoint get (k : string) (d : Dict V) : option V :=
  match d with
  | [] => None
  | (k', v) :: d' => if String.eqb k k' then Some v else get k d'
  end.

(** [k in d] *)
Definition mem (k : string) (d : Dict V) : bool :=
  match get k d with Some _ => true | None => false end.

(** [d[k] = v]: an existing key keeps its position, a new key goes last. *)
Fixpoint set (k : string) (v : V) (d : Dict V) : Dict V :=
  match d with
  | [] => [(k, v)]
  | (k', v') :: d' =>
      if String.eqb k k' then (k, v) :: d' else (k', v') :: set k v d'
  end.

(** [del d[k]]; the source only deletes keys it has just read from the
    dictionary, so the [KeyError] case does not arise. *)
Definition del (k : string) (d : Dict V) : Dict V :=
  List.filter (fun e => negb (String.eqb k (fst e))) d.

(** [for key in ks: del d[key]] *)
Definition del_all (ks : list string) (d : Dict V) : Dict V :=
  fold_left (fun acc k => del k acc) ks d.

(** [d.clear()] *)
Definition clear (d : Dict V) : Dict V := [].
End Ops.
End dict.

(** ** Qt values *)

Record QSize := mkQSize { width : Z; height : Z }.

Definition QSize_eqb (a b : QSize) : bool :=
  (width a =? width b) && (height a =? height b).

(** The decoded pixel data of an image: its dimensions and its contents,
    the contents abstracted to an identifying number. *)
Record Bitmap := mkBitmap { bm_width : Z; bm_height : Z; bm_pixels : Z }.

Definition Bitmap_eqb (a b : Bitmap) : bool :=
  (bm_width a =? bm_width b) && (bm_height a =? bm_height b)
  && (bm_pixels a =? bm_pixels b).

(** A [QImage]: Qt's [cacheKey()] (the serial number of the image data
    shifted left by 32 bits, or-ed with its detach counter) and the pixel
    data, absent for a null image. *)
Record QImage := mkQImage { cacheKey : Z; bits : option Bitmap }.

Definition isNull (i : QImage) : bool :=
  match bits i with None => true | Some _ => false end.

(** [QImage.operator==]: two null images are equal, otherwise the pixel data
    are compared; the cache key plays no part. *)
Definition QImage_eqb (a b : QImage) : bool :=
  match bits a, bits b with
  | None, None => true
  | Some x, Some y => Bitmap_eqb x y
  | _, _ => false
  end.

(** [a != b] where either side may be [None]. *)
Definition image_ne (a b : option QImage) : bool :=
  match a, b with
  | None, None => false
  | Some x, Some y => negb (QImage_eqb x y)
  | _, _ => true
  end.

(** [image and not image.isNull()] *)
Definition is_valid (image : option QImage) : bool :=
  match image with
  | None => false
  | Some i => negb (isNull i)
  end.

Inductive TransformationMode := SmoothTransformation | FastTransformation.

(** What the model index answers for the three roles the delegate reads.
    Name and type are strings, on which the [or ""] of the key functions
    changes nothing; the decoration is an image or [None]. *)
Record ModelIndex := mkIndex {
  NameRole : string;
  TypeRole : string;
  DecorationRole : option QImage
}.

(** The part of [QStyleOptionViewItem] that [paint] reads. *)
Record StyleOption := mkOption { State_Selected : bool; rect : QSize }.

(** ** [ItemRenderWidget]: the scratch widget every item is rendered with *)

(** The image [_getDisplayImage] returns, one constructor per [return] of
    the source. *)
Inductive DisplayImage :=
| LoadingPlaceholder (b : Bitmap)      (* [return self._loading_placeholder] *)
| ScaledImageCache (i : QImage)        (* [return self._scaled_image_cache] *)
| ErrorImage                           (* [return self._error_image.scaled(...)] *)
| OriginalImage (i : QImage).          (* [return self._image] *)

Record ItemRenderWidget := mkWidget {
  _image : option QImage;
  _scaled_image_cache : option QImage;
  _cache_size : QSize;
  _loading_placeholder : option Bitmap;
  _is_loading : bool;
  selected : bool;
  model_name_label : string;
  model_type_label : string
}.

(** The placeholder [setLoadingState] creates: 200 by 200 pixels filled with
    the colour [#45475A]. It is only ever drawn, so the widget keeps its
    pixel data. *)
Definition loading_fill : Bitmap := mkBitmap 200 200 0x45475A.

Module ItemRenderWidget.

Definition __init__ : ItemRenderWidget :=
  {| _image := Some (mkQImage 0 None);
     _scaled_image_cache := None;
     _cache_size := mkQSize (-1) (-1);
     _loading_placeholder := None;
     _is_loading := false;
     selected := false;
     model_name_label := "name";
     model_type_label := "type" |}.

(** [resize]: the scaled-image cache is dropped when the size asked for
    changes. The geometry [super().resize] gives the widget and the layout
    margins (floating point) are Qt's state and left out. *)
Definition resize (sz : QSize) (w : ItemRenderWidget) : ItemRenderWidget :=
  if negb (QSize_eqb (_cache_size w) sz) then
    {| _image := _image w; _scaled_image_cache := None; _cache_size := sz;
       _loading_placeholder := _loading_placeholder w;
       _is_loading := _is_loading w; selected := selected w;
       model_name_label := model_name_label w;
       model_type_label := model_type_label w |}
  else w.

Definition setModelName (name : string) (w : ItemRenderWidget) :=
  {| _image := _image w; _scaled_image_cache := _scaled_image_cache w;
     _cache_size := _cache_size w;
     _loading_placeholder := _loading_placeholder w;
     _is_loading := _is_loading w; selected := selected w;
     model_name_label := name;
     model_type_label := model_type_label w |}.

Definition setModelType (type : string) (w : ItemRenderWidget) :=
  {| _image := _image w; _scaled_image_cache := _scaled_image_cache w;
     _cache_size := _cache_size w;
     _loading_placeholder := _loading_placeholder w;
     _is_loading := _is_loading w; selected := selected w;
     model_name_label := model_name_label w;
     model_type_label := type |}.

Definition setImage (image : option QImage) (w : ItemRenderWidget) :=
  if image_ne (_image w) image then
    {| _image := image; _scaled_image_cache := None;
       _cache_size := _cache_size w;
       _loading_placeholder := _loading_placeholder w;
       _is_loading := false; selected := selected w;
       model_name_label := model_name_label w;
       model_type_label := model_type_label w |}
  else w.

Definition setLoadingState (loading : bool) (w : ItemRenderWidget) :=
  {| _image := _image w; _scaled_image_cache := _scaled_image_cache w;
     _cache_size := _cache_size w;
     _loading_placeholder :=
       match _loading_placeholder w with
       | None => if loading then Some loading_fill else None
       | Some b => Some b
       end;
     _is_loading := loading; selected := selected w;
     model_name_label := model_name_label w;
     model_type_label := model_type_label w |}.

(** [self._widget.selected = ...] *)
Definition set_selected (s : bool) (w : ItemRenderWidget) :=
  {| _image := _image w; _scaled_image_cache := _scaled_image_cache w;
     _cache_size := _cache_size w;
     _loading_placeholder := _loading_placeholder w;
     _is_loading := _is_loading w; selected := s;
     model_name_label := model_name_label w;
     model_type_label := model_type_label w |}.

(** [setGeometry(option.rect)]: Qt's own method. It does not go through the
    Python [resize] above, so none of the widget's Python attributes
    changes. The geometry the widget ends with is Qt's state: the rectangle
    asked for, its size raised to the minimum size of the widget's layout
    where the rectangle is smaller. *)
Definition setGeometry (r : QSize) (w : ItemRenderWidget) : ItemRenderWidget :=
  w.

Definition _getDisplayImage (w : ItemRenderWidget) : DisplayImage :=
  match (if _is_loading w then _loading_placeholder w else None) with
  | Some b => LoadingPlaceholder b
  | None =>
      match _scaled_image_cache w with
      | Some s => ScaledImageCache s
      | None =>
          match _image w with
          | None => ErrorImage
          | Some i => if isNull i then ErrorImage else OriginalImage i
          end
      end
  end.

End ItemRenderWidget.

(** A rendered payload: what [self._widget.render(pixmap, ...)] paints,
    namely the display image chosen by [paintEvent], the border style that
    follows [selected], and the two labels. The pixmap has the size Qt gave
    the widget (see [setGeometry]), which is not recorded. *)
Record QPixmap := mkPixmap {
  px_image : DisplayImage;
  px_selected : bool;
  px_name : string;
  px_type : string
}.

Definition render (w : ItemRenderWidget) : QPixmap :=
  {| px_image := ItemRenderWidget._getDisplayImage w;
     px_selected := selected w;
     px_name := model_name_label w;
     px_type := model_type_label w |}.

(** ** [ModelGalleryItemDelegate] *)

(** [weakref.ref(self._widget)]: every entry of [_pending_loads] refers to the
    one scratch widget. *)
Inductive WidgetRef := widget_ref.

Record ModelGalleryItemDelegate := mkDelegate {
  _item_size : QSize;
  _widget : ItemRenderWidget;
  _pixmap_cache : Dict QPixmap;
  _image_cache : Dict QImage;
  _max_cache_size : Z;
  _max_image_cache_size : Z;
  _pending_loads : Dict WidgetRef
}.

(** A call [loadImage(cache_key, image_data, target_size)] queued for the
    worker thread. *)
Record Job := mkJob { job_key : string; job_image : QImage; job_target : QSize }.

(** What one [paint] call does to its surroundings: the pixmap drawn on the
    painter, whether it came from the pixmap cache, and the job handed to the
    image loader, if any. *)
Record Painted := mkPainted {
  drawn : QPixmap;
  cache_hit : bool;
  dispatched : option Job
}.

(** How a slot ends: normally, or with the [IndexError] of
    [cache_key.split('_', 1)[1]]; each carries the delegate as it then is. *)
Inductive Outcome :=
| Normal (d : ModelGalleryItemDelegate)
| IndexError (d : ModelGalleryItemDelegate).

Definition delegate_of (o : Outcome) : ModelGalleryItemDelegate :=
  match o with Normal d => d | IndexError d => d end.

Section Pipeline.

(** [paint], lines 317-324: the size the image is to be scaled to, computed
    from the image's dimensions and the item size in floating point and
    truncated with [int]. *)
Variable scaling_target : QImage -> QSize -> QSize.

(** [image.scaled(target_size, KeepAspectRatio, mode)]: the image returned,
    which is a null image when Qt could not scale (an empty target, no
    memory for the result); [None] when the call raises instead of
    returning. *)
Variable scaled : QImage -> QSize -> TransformationMode -> option QImage.

(** *** [ImageWorker] *)

(** The quality [processImage] scales with: smooth for targets wider or
    taller than 400 pixels, fast otherwise. *)
Definition transformation_mode (target_size : QSize) : TransformationMode :=
  if (width target_size >? 400) || (height target_size >? 400)
  then SmoothTransformation else FastTransformation.

(** [processImage]: the list of [imageLoaded] signals the slot emits. *)
Definition processImage (cache_key : string) (image : QImage)
    (target_size : QSize) : list (string * QImage) :=
  if isNull image then [(cache_key, image)]
  else
    match scaled image target_size (transformation_mode target_size) with
    | Some result => [(cache_key, result)]
    | None => [(cache_key, image)]          (* [except Exception] *)
    end.

(** *** The delegate's methods *)

Definition __init__ : ModelGalleryItemDelegate :=
  {| _item_size := mkQSize 450 650;
     _widget := ItemRenderWidget.__init__;
     _pixmap_cache := [];
     _image_cache := [];
     _max_cache_size := 200;
     _max_image_cache_size := 100;
     _pending_loads := [] |}.

Definition setItemSize (sz : QSize) (d : ModelGalleryItemDelegate) :=
  {| _item_size := sz;
     _widget := ItemRenderWidget.resize sz (_widget d);
     _pixmap_cache := dict.clear (_pixmap_cache d);
     _image_cache := dict.clear (_image_cache d);
     _max_cache_size := _max_cache_size d;
     _max_image_cache_size := _max_image_cache_size d;
     _pending_loads := _pending_loads d |}.

(** [hash(image.cacheKey()) if image and not image.isNull() else "no_image"],
    as the f-string then renders it. *)
Definition image_key (image : option QImage) : string :=
  match image with
  | Some i => if isNull i then "no_image" else Py.str_int (Py.hash_int (cacheKey i))
  | None => "no_image"
  end.

Definition _getCacheKey (index : ModelIndex) (sel : bool)
    (d : ModelGalleryItemDelegate) : string :=
  NameRole index +:+ "_" +:+ TypeRole index +:+ "_" +:+
  image_key (DecorationRole index) +:+ "_" +:+ Py.str_bool sel +:+ "_" +:+
  Py.str_int (width (_item_size d)) +:+ "_" +:+
  Py.str_int (height (_item_size d)).

Definition _getImageCacheKey (index : ModelIndex)
    (d : ModelGalleryItemDelegate) : string :=
  "img_" +:+ image_key (DecorationRole index) +:+ "_" +:+
  Py.str_int (width (_item_size d)) +:+ "_" +:+
  Py.str_int (height (_item_size d)).

Definition _onImageReady (cache_key : string) (processed_image : QImage)
    (d : ModelGalleryItemDelegate) : Outcome :=
  (* Store in image cache *)
  let images :=
    if dict.len (_image_cache d) <? _max_image_cache_size d
    then dict.set cache_key processed_image (_image_cache d)
    else _image_cache d in
  (* Clear related pixmap cache entries; the fragment is computed once per
     key of the pixmap cache, so an empty cache never evaluates it *)
  let keys_to_remove :=
    match _pixmap_cache d with
    | [] => Some []
    | _ :: _ =>
        match nth_error (Py.split_once "_" cache_key) 1 with
        | Some fragment =>
            Some (List.filter (fun k => Py.contains fragment k)
                         (dict.keys (_pixmap_cache d)))
        | None => None
        end
    end in
  match keys_to_remove with
  | None =>
      IndexError
        {| _item_size := _item_size d; _widget := _widget d;
           _pixmap_cache := _pixmap_cache d; _image_cache := images;
           _max_cache_size := _max_cache_size d;
           _max_image_cache_size := _max_image_cache_size d;
           _pending_loads := _pending_loads d |}
  | Some ks =>
      Normal
        {| _item_size := _item_size d; _widget := _widget d;
           _pixmap_cache := dict.del_all ks (_pixmap_cache d);
           _image_cache := images;
           _max_cache_size := _max_cache_size d;
           _max_image_cache_size := _max_image_cache_size d;
           (* Remove from pending loads *)
           _pending_loads :=
             if dict.mem cache_key (_pending_loads d)
             then dict.del cache_key (_pending_loads d)
             else _pending_loads d |}
  end.

(** The three branches of "Handle image loading" in [paint]: the widget as
    set up, the pending loads, and the job handed to the loader. *)
Definition load_image (index : ModelIndex) (d : ModelGalleryItemDelegate)
    : ItemRenderWidget * Dict WidgetRef * option Job :=
  let image := DecorationRole index in
  let image_cache_key := _getImageCacheKey index d in
  let w := ItemRenderWidget.setModelType (TypeRole index)
             (ItemRenderWidget.setModelName (NameRole index) (_widget d)) in
  match dict.get image_cache_key (_image_cache d) with
  | Some cached =>
      (* Use cached processed image *)
      (ItemRenderWidget.setLoadingState false
         (ItemRenderWidget.setImage (Some cached) w),
       _pending_loads d, None)
  | None =>
      match image with
      | Some img =>
          if negb (isNull img)
             && negb (dict.mem image_cache_key (_pending_loads d))
          then
            (* Start async loading *)
            (ItemRenderWidget.setLoadingState true
               (ItemRenderWidget.setImage image w),
             dict.set image_cache_key widget_ref (_pending_loads d),
             Some (mkJob image_cache_key img (scaling_target img (_item_size d))))
          else
            (* Use original image or error placeholder *)
            (ItemRenderWidget.setLoadingState false
               (ItemRenderWidget.setImage image w),
             _pending_loads d, None)
      | None =>
          (ItemRenderWidget.setLoadingState false
             (ItemRenderWidget.setImage image w),
           _pending_loads d, None)
      end
  end.

Definition paint (option : StyleOption) (index : ModelIndex)
    (d : ModelGalleryItemDelegate) : ModelGalleryItemDelegate * Painted :=
  (* Check pixmap cache first *)
  let cache_key := _getCacheKey index (State_Selected option) d in
  match dict.get cache_key (_pixmap_cache d) with
  | Some pixmap => (d, mkPainted pixmap true None)
  | None =>
      let '(w, pending, job) := load_image index d in
      let w := ItemRenderWidget.setGeometry (rect option)
                 (ItemRenderWidget.set_selected (State_Selected option) w) in
      let pixmap := render w in
      (* Cache management with LRU-like behavior *)
      let pixmaps :=
        if dict.len (_pixmap_cache d) >=? _max_cache_size d
        then dict.del_all (firstn 20 (dict.keys (_pixmap_cache d)))
                          (_pixmap_cache d)
        else _pixmap_cache d in
      ({| _item_size := _item_size d; _widget := w;
          _pixmap_cache := dict.set cache_key pixmap pixmaps;
          _image_cache := _image_cache d;
          _max_cache_size := _max_cache_size d;
          _max_image_cache_size := _max_image_cache_size d;
          _pending_loads := pending |},
       mkPainted pixmap false job)
  end.

Definition clearCaches (d : ModelGalleryItemDelegate) :=
  {| _item_size := _item_size d; _widget := _widget d;
     _pixmap_cache := dict.clear (_pixmap_cache d);
     _image_cache := dict.clear (_image_cache d);
     _max_cache_size := _max_cache_size d;
     _max_image_cache_size := _max_image_cache_size d;
     _pending_loads := dict.clear (_pending_loads d) |}.

(** *** [ImageGalleryListView]: the resize path *)

Record ImageGalleryListView := mkView {
  gridSize : QSize;
  _item_delegate : ModelGalleryItemDelegate
}.

(** The part of [QResizeEvent] that [resizeEvent] reads. *)
Record QResizeEvent := mkResize { e_size : QSize; e_oldSize : QSize }.

Definition view_init : ImageGalleryListView :=
  {| gridSize := mkQSize 450 650; _item_delegate := __init__ |}.

(** [setGridSize]: the signal [gridSizeChanged] is connected to the
    delegate's [setItemSize]. *)
Definition setGridSize (sz : QSize) (v : ImageGalleryListView) :=
  if negb (QSize_eqb (gridSize v) sz) then
    {| gridSize := sz; _item_delegate := setItemSize sz (_item_delegate v) |}
  else v.

(** [_updateGridSize] once [calculateGridSize()] has returned [calculated].
    The calculation itself, which can raise instead, is
    [GalleryList.calculateGridSize] below. *)
Definition _updateGridSize (calculated : QSize) (v : ImageGalleryListView) :=
  setGridSize calculated v.

(** [resizeEvent] as it acts on the grid size and the delegate when
    [calculateGridSize()], if called, returns [calculated]. The whole
    method, with the call that raises before anything is cleared, is
    [GalleryList.resizeEvent'] below. *)
Definition resizeEvent (e : QResizeEvent) (calculated : QSize)
    (v : ImageGalleryListView) : ImageGalleryListView :=
  (* Only update if size change is significant *)
  if Z.abs (width (e_size e) - width (e_oldSize e)) >? 50 then
    let v' := _updateGridSize calculated v in
    (* Clear delegate caches on resize *)
    {| gridSize := gridSize v';
       _item_delegate := clearCaches (_item_delegate v') |}
  else v.

(** *** The two threads

    The main thread owns the view and the delegate; the worker thread runs
    the queued [processImage] calls one at a time; its signals come back to
    the main thread through Qt's event queue. Both queues are first-in
    first-out. *)

Record System := mkSystem {
  view : ImageGalleryListView;
  worker_queue : list Job;
  ready_queue : list (string * QImage)
}.

Inductive Event :=
| Paint (option : StyleOption) (index : ModelIndex)
| UpdateGridSize (calculated : QSize)       (* [setItemsPerRow] *)
| Resize (e : QResizeEvent) (calculated : QSize)
                                 (* a resize whose grid calculation returns *)
| ClearCaches                    (* [setModel], model reset, hiding the view *)
| WorkerRuns                     (* the worker takes its next job *)
| ImageReady.                    (* the next [imageReady] signal is delivered *)

Definition system_init : System :=
  {| view := view_init; worker_queue := []; ready_queue := [] |}.

Definition with_delegate (d : ModelGalleryItemDelegate) (s : System) :=
  {| view := {| gridSize := gridSize (view s); _item_delegate := d |};
     worker_queue := worker_queue s; ready_queue := ready_queue s |}.

Definition step (s : System) (ev : Event) : System :=
  match ev with
  | Paint option index =>
      let '(d, p) := paint option index (_item_delegate (view s)) in
      {| view := {| gridSize := gridSize (view s); _item_delegate := d |};
         worker_queue :=
           worker_queue s ++
           match dispatched p with Some j => [j] | None => [] end;
         ready_queue := ready_queue s |}
  | UpdateGridSize calculated =>
      {| view := _updateGridSize calculated (view s);
         worker_queue := worker_queue s; ready_queue := ready_queue s |}
  | Resize e calculated =>
      {| view := resizeEvent e calculated (view s);
         worker_queue := worker_queue s; ready_queue := ready_queue s |}
  | ClearCaches =>
      with_delegate (clearCaches (_item_delegate (view s))) s
  | WorkerRuns =>
      match worker_queue s with
      | [] => s
      | j :: rest =>
          {| view := view s; worker_queue := rest;
             ready_queue :=
               ready_queue s ++
               processImage (job_key j) (job_image j) (job_target j) |}
      end
  | ImageReady =>
      match ready_queue s with
      | [] => s
      | (k, img) :: rest =>
          {| view :=
               {| gridSize := gridSize (view s);
                  _item_delegate :=
                    delegate_of (_onImageReady k img (_item_delegate (view s))) |};
             worker_queue := worker_queue s; ready_queue := rest |}
      end
  end.

Definition run (s : System) (evs : list Event) : System :=
  fold_left step evs s.

(** The keys of the scale jobs in flight: dispatched, and their completion
    not yet delivered to [_onImageReady]. *)
Definition in_flight (s : System) : list string :=
  map job_key (worker_queue s) ++ map fst (ready_queue s).

Definition count_key (k : string) (ks : list string) : nat :=
  length (List.filter (String.eqb k) ks).

(** [paint] calls one after another, with the pixmaps drawn and the jobs
    dispatched on the way. *)
Fixpoint paints (reqs : list (StyleOption * ModelIndex))
    (d : ModelGalleryItemDelegate)
    : ModelGalleryItemDelegate * list Painted :=
  match reqs with
  | [] => (d, [])
  | (o, i) :: reqs' =>
      let '(d1, p) := paint o i d in
      let '(d2, ps) := paints reqs' d1 in
      (d2, p :: ps)
  end.

Definition jobs_of (ps : list Painted) : list Job :=
  flat_map (fun p => match dispatched p with Some j => [j] | None => [] end) ps.

End Pipeline.

(** ** The cache table of the specification (section 4.2)

    A recency-ordered table, written from the specification's words for
    comparison with what [paint] does: the least recently used entry comes
    first, a read moves its entry to the most recent end, and an insertion
    that would exceed [max_entries] first evicts from the least recent end
    down to [target] entries. *)

Module LRU.
Section Table.
Context {V : Type}.
Variables (max_entries target : nat).

Definition read (k : string) (t : Dict V) : option V * Dict V :=
  match dict.get k t with
  | Some v => (Some v, (dict.del k t ++ [(k, v)])%list)
  | None => (None, t)
  end.

Definition put (k : string) (v : V) (t : Dict V) : Dict V :=
  let t' := dict.del k t in
  let kept :=
    if (max_entries <? S (length t'))%nat
    then skipn (length t' - target) t'
    else t' in
  (kept ++ [(k, v)])%list.

(** A payload request against the table: a read, and on a miss the
    insertion of the freshly built value. *)
Definition request (k : string) (v : V) (t : Dict V) : Dict V :=
  match read k t with
  | (Some _, t') => t'
  | (None, t') => put k v t'
  end.
End Table.
End LRU.

(** ** Concrete items and runs *)

Module Ex.

(** [int(x)] for a float [x], here a rational: truncation towards zero. *)
Definition int (x : Q) : Z := Z.quot (Qnum x) (Z.pos (Qden x)).

(** The scaling target of [paint], lines 317-324, in exact arithmetic. For
    the images and item sizes of the runs below every quotient and product
    (aspect ratios 0.75 and 1.0, and their multiples) is exact in binary
    floating point too, so the values are those the code computes: 487 by
    650 for a 600 by 800 image at the item size 450 by 650. An image that
    is not null has positive dimensions, so the aspect ratio divided by is
    not zero. *)
Definition target (image : QImage) (item_size : QSize) : QSize :=
  let '(image_width, image_height) :=
    match bits image with
    | Some b => (bm_width b, bm_height b)
    | None => (0, 0)
    end in
  let h : Q := inject_Z (height item_size) in
  let aspect_ratio : Q :=
    if image_height >? 0
    then Qdiv (inject_Z image_width) (inject_Z image_height)
    else inject_Z 1 in
  let w : Q := Qmult h aspect_ratio in
  if negb (Qle_bool (inject_Z (width item_size)) w)    (* [width < ...] *)
  then
    let w := inject_Z (width item_size) in
    let h := Qdiv w aspect_ratio in
    mkQSize (int w) (int h)
  else mkQSize (int w) (int h).

(** [QImage.scaled] succeeding: a new image of the target's dimensions,
    which in the runs below have the aspect ratio of the image. *)
Definition scale : QImage -> QSize -> TransformationMode -> option QImage :=
  fun i sz _ =>
    Some (mkQImage (cacheKey i + 1000) (Some (mkBitmap (width sz) (height sz) 1))).


(** The grid formula of [calculateGridSize], lines 88-92, in exact
    arithmetic. The factor 0.99 is not exact in binary floating point;
    where the minimum width of 200 applies, as for a viewport 900 pixels
    wide with 5 items per row, it plays no part, and the value (200 by 300)
    is the one the code computes. *)
Definition grid (viewport_width items_per_row : Z) : QSize :=
  let w : Q :=
    inject_Z (Qfloor (Qdiv (inject_Z viewport_width) (inject_Z items_per_row))) in
  let w : Q := Qmax (Qmult w (99 # 100)) (inject_Z 200) in
  let h : Z := Qfloor (Qmult w (3 # 2)) in
  mkQSize (int w) h.

(** Item "A" of type "B" with a valid 600 by 800 image, cache key 7. *)
Definition imageA : QImage := mkQImage 7 (Some (mkBitmap 600 800 42)).
Definition itemA : ModelIndex := mkIndex "A" "B" (Some imageA).

(** An unselected cell of 450 by 650 pixels, and the same cell selected. *)
Definition cell : StyleOption := mkOption false (mkQSize 450 650).
Definition cell_selected : StyleOption := mkOption true (mkQSize 450 650).

(** The [n]-th of a family of distinct items, each with its own image. *)
Definition item (n : nat) : ModelIndex :=
  mkIndex ("item" +:+ pretty n) "T"
          (Some (mkQImage (Z.of_nat n + 1) (Some (mkBitmap 10 10 (Z.of_nat n))))).

Definition requests (from count : nat) : list (StyleOption * ModelIndex) :=
  map (fun n => (cell, item n)) (seq from count).

(** The delegate after painting items 0 to 199 once each: its pixmap cache
    holds 200 entries. *)
Definition delegate200 : ModelGalleryItemDelegate :=
  Eval vm_compute in fst (paints target (requests 0 200) __init__).

(** The system after items 0 to 99 were painted, scaled and delivered: the
    image cache holds 100 entries; item 100 is then painted and scaled, its
    completion waiting in the queue. *)
Definition system100 : System :=
  Eval vm_compute in
    run target scale system_init
      (map (fun r => Paint (fst r) (snd r)) (requests 0 100)
       ++ repeat WorkerRuns 100 ++ repeat ImageReady 100
       ++ [Paint cell (item 100); WorkerRuns])%list.

(** Two valid images whose cache keys differ by [2^61 - 1]. *)
Definition image_low : QImage :=
  mkQImage (2 ^ 32 + 1) (Some (mkBitmap 10 10 1)).
Definition image_high : QImage :=
  mkQImage (2 ^ 61 + 2 ^ 32) (Some (mkBitmap 10 10 2)).

End Ex.

(** ** Predicates on runs *)

(** The events that empty the pending loads: an explicit [clearCaches], and
    a resize whose width change passes the threshold of [resizeEvent]. *)
Definition clears_tracker (ev : Event) : bool :=
  match ev with
  | ClearCaches => true
  | Resize e _ => Z.abs (width (e_size e) - width (e_oldSize e)) >? 50
  | _ => false
  end.

(** Every key in flight is an image-cache key. *)
Definition keys_wellformed (s : System) : Prop :=
  forall k, In k (in_flight s) -> exists rest, k = "img_" +:+ rest.

(** Every pending key has a job in flight. *)
Definition no_stale_entry (s : System) : Prop :=
  forall k, dict.mem k (_pending_loads (_item_delegate (view s))) = true ->
            (0 < count_key k (in_flight s))%nat.

(** At most one job in flight per key, and a key in flight is pending. *)
Definition deduplicated (s : System) : Prop :=
  forall k, (count_key k (in_flight s) <= 1)%nat /\
            ((0 < count_key k (in_flight s))%nat ->
             dict.mem k (_pending_loads (_item_delegate (view s))) = true).

(** The configured bounds and the cache sizes within them. *)
Definition bounded (d : ModelGalleryItemDelegate) : Prop :=
  _max_cache_size d = 200 /\ _max_image_cache_size d = 100 /\
  dict.len (_pixmap_cache d) <= 200 /\ dict.len (_image_cache d) <= 100.


(** ** The request trace that separates the two eviction policies

    Items 0 to 199 are requested once each, item 0 is requested again (a
    read), and item 200 is requested (an insertion into a full cache). *)

Module Trace.

Definition trace : list (StyleOption * ModelIndex) :=
  (Ex.requests 0 200 ++ [(Ex.cell, Ex.item 0); (Ex.cell, Ex.item 200)])%list.

(** The pixmap cache of the delegate after the trace. *)
Definition code_cache : Dict QPixmap :=
  Eval vm_compute in _pixmap_cache (fst (paints Ex.target trace __init__)).

(** The table of the specification after the same requests, with the
    delegate's bound of 200 entries and 180 (90 percent) as the target. *)
Definition spec_table : Dict unit :=
  Eval vm_compute in
    fold_left
      (fun t r => LRU.request 200 180
                    (_getCacheKey (snd r) (State_Selected (fst r)) __init__) tt t)
      trace [].

End Trace.


(** ** The rest of the render widget and of the delegate *)

(** [ItemRenderWidget.setScaledImage]; the repaint it asks for with
    [update()] is Qt's business. Nothing in the package calls it. *)
Definition setScaledImage (scaled_image : QImage) (w : ItemRenderWidget)
    : ItemRenderWidget :=
  {| _image := _image w; _scaled_image_cache := Some scaled_image;
     _cache_size := _cache_size w;
     _loading_placeholder := _loading_placeholder w;
     _is_loading := false; selected := selected w;
     model_name_label := model_name_label w;
     model_type_label := model_type_label w |}.

(** [ModelGalleryItemDelegate.sizeHint] *)
Definition sizeHint (d : ModelGalleryItemDelegate) : QSize := _item_size d.

(** What the pipeline keeps true of its scratch widget. *)
Definition widget_invariant (w : ItemRenderWidget) : Prop :=
  _scaled_image_cache w = None /\
  (_loading_placeholder w = None \/ _loading_placeholder w = Some loading_fill) /\
  (_is_loading w = true -> _loading_placeholder w = Some loading_fill).

(** The pixmap [pm] cached under [k] is what a request rendered: the key is
    that request's key at the delegate's item size, and the pixmap carries
    its name, type and selection state. *)
Definition rendered_for (d : ModelGalleryItemDelegate) (k : string)
    (pm : QPixmap) : Prop :=
  exists (o : StyleOption) (i : ModelIndex),
    k = _getCacheKey i (State_Selected o) d /\
    px_name pm = NameRole i /\ px_type pm = TypeRole i /\
    px_selected pm = State_Selected o.

(** The events of the pipeline proper: requests, the worker, deliveries. *)
Definition pipeline_event (ev : Event) : bool :=
  match ev with
  | Paint _ _ | WorkerRuns | ImageReady => true
  | _ => false
  end.

(** ** [ImageGalleryListView] and [ModelGalleryView]: grid, range, wheel *)

(** [QSize.isEmpty()] *)
Definition isEmpty (sz : QSize) : bool := (width sz <=? 0) || (height sz <=? 0).

Module GalleryList.

(** The list view's own attributes, around the grid size and the delegate
    modelled above; [model] is [None] or the [rowCount()] of the model
    set. *)
Record State := mkState {
  list_view : ImageGalleryListView;
  _items_per_row : Z;
  _cached_grid_size : QSize;
  _cached_viewport_width : Z;
  _last_visible_range : Z * Z;
  model : option Z
}.

(** How a method ends: by returning, or with the [ZeroDivisionError] of
    [viewport_width / self._items_per_row]; each with the state then. *)
Inductive Result :=
| Done (st : State)
| ZeroDivisionError (st : State).

Definition state_of (o : Result) : State :=
  match o with Done st => st | ZeroDivisionError st => st end.

Definition initial : State :=
  {| list_view := view_init;
     _items_per_row := 5;
     _cached_grid_size := mkQSize (-1) (-1);
     _cached_viewport_width := 0;
     _last_visible_range := (0, 0);
     model := None |}.

Section Grid.

(** [calculateGridSize], lines 88-92: the cell size for a viewport width
    and a number of items per row, computed in floating point
    ([floor], a factor 0.99, a minimum of 200, the aspect ratio 1.5). *)
Variable grid_formula : Z -> Z -> QSize.

(** [calculateGridSize]; [viewport_width] is the viewport's width less the
    contents margins. The result is the size and the state with its cache
    of the last calculation. *)
Definition calculateGridSize (viewport_width : Z) (st : State)
    : option (QSize * State) :=
  if (Z.abs (viewport_width - _cached_viewport_width st) <? 10)
     && negb (isEmpty (_cached_grid_size st))
  then Some (_cached_grid_size st, st)
  else if _items_per_row st =? 0 then None
  else
    let grid_size := grid_formula viewport_width (_items_per_row st) in
    Some (grid_size,
          {| list_view := list_view st;
             _items_per_row := _items_per_row st;
             _cached_grid_size := grid_size;
             _cached_viewport_width := viewport_width;
             _last_visible_range := _last_visible_range st;
             model := model st |}).

(** [_updateGridSize] on the view's own state; the layout pass it
    schedules is left to Qt. *)
Definition _updateGridSize' (viewport_width : Z) (st : State) : Result :=
  match calculateGridSize viewport_width st with
  | None => ZeroDivisionError st
  | Some (sz, st') =>
      Done {| list_view := setGridSize sz (list_view st');
              _items_per_row := _items_per_row st';
              _cached_grid_size := _cached_grid_size st';
              _cached_viewport_width := _cached_viewport_width st';
              _last_visible_range := _last_visible_range st';
              model := model st' |}
  end.

Definition setItemsPerRow (items_per_row viewport_width : Z) (st : State)
    : Result :=
  if negb (_items_per_row st =? items_per_row) then
    _updateGridSize' viewport_width
      {| list_view := list_view st;
         _items_per_row := items_per_row;
         _cached_grid_size := _cached_grid_size st;
         _cached_viewport_width := _cached_viewport_width st;
         _last_visible_range := _last_visible_range st;
         model := model st |}
  else Done st.

Definition itemsPerRow (st : State) : Z := _items_per_row st.

(** [resizeEvent], the whole method: how it ends, and the single step it
    sets on the vertical scroll bar when it gets that far. When
    [calculateGridSize] raises, the method is left before the scroll bar
    and the delegate are touched. [super().resizeEvent(e)] is Qt's
    layout. *)
Definition resizeEvent' (e : QResizeEvent) (viewport_width : Z) (st : State)
    : Result * option Z :=
  (* Only update if size change is significant *)
  if Z.abs (width (e_size e) - width (e_oldSize e)) >? 50 then
    match _updateGridSize' viewport_width st with
    | ZeroDivisionError st' => (ZeroDivisionError st', None)
    | Done st' =>
        (* Update scroll step based on new grid size *)
        let grid_size := gridSize (list_view st') in
        let single_step := Z.max (height grid_size / 5) 20 in
        (* Clear delegate caches on resize *)
        (Done {| list_view :=
                   {| gridSize := gridSize (list_view st');
                      _item_delegate :=
                        clearCaches (_item_delegate (list_view st')) |};
                 _items_per_row := _items_per_row st';
                 _cached_grid_size := _cached_grid_size st';
                 _cached_viewport_width := _cached_viewport_width st';
                 _last_visible_range := _last_visible_range st';
                 model := model st' |},
         Some single_step)
    end
  else (Done st, None).

(** [ModelGalleryView.updateItemsPerRow] *)
Definition updateItemsPerRow (count viewport_width : Z) (st : State)
    : Result :=
  if (1 <=? count) && (count <=? 10)
  then setItemsPerRow count viewport_width st
  else Done st.

(** Calls of [updateItemsPerRow] one after another, each with the viewport
    width of its moment; an exception ends the sequence. *)
Fixpoint updates (calls : list (Z * Z)) (st : State) : Result :=
  match calls with
  | [] => Done st
  | (count, viewport_width) :: calls' =>
      match updateItemsPerRow count viewport_width st with
      | Done st' => updates calls' st'
      | ZeroDivisionError st' => ZeroDivisionError st'
      end
  end.

End Grid.

(** [setModel] of the list view: the delegate's caches are cleared and the
    range tracking starts over. *)
Definition setModel (new_model : option Z) (st : State) : State :=
  {| list_view :=
       {| gridSize := gridSize (list_view st);
          _item_delegate := clearCaches (_item_delegate (list_view st)) |};
     _items_per_row := _items_per_row st;
     _cached_grid_size := _cached_grid_size st;
     _cached_viewport_width := _cached_viewport_width st;
     _last_visible_range := (0, 0);
     model := new_model |}.

(** [model.index(r, 0)]: a valid index for a row of the model, the invalid
    index otherwise; [None] is the invalid index. *)
Definition index (rows r : Z) : option Z :=
  if (0 <=? r) && (r <? rows) then Some r else None.

(** [QModelIndex.row()], -1 for the invalid index. *)
Definition row (i : option Z) : Z :=
  match i with Some r => r | None => -1 end.

(** [_getVisibleRange]; [top] and [bottom] are what [indexAt] answers for
    the top-left and bottom-left corners of the viewport. *)
Definition _getVisibleRange (top bottom : option Z) (st : State) : Z * Z :=
  match model st with
  | None => (0, 0)
  | Some rows =>
      let top_index :=
        match top with Some r => Some r | None => index rows 0 end in
      let bottom_index :=
        match bottom with Some r => Some r | None => index rows (rows - 1) end in
      (* Add buffer for smooth scrolling *)
      let buffer := _items_per_row st * 2 in
      (Z.max 0 (row top_index - buffer),
       Z.min rows (row bottom_index + buffer))
  end.

(** [_updateVisibleItems]: the state, and the pair of rows whose visual
    rectangles the viewport is asked to repaint, if it is asked. *)
Definition _updateVisibleItems (top bottom : option Z) (st : State)
    : State * option (Z * Z) :=
  let visible_range := _getVisibleRange top bottom st in
  if negb ((fst visible_range =? fst (_last_visible_range st))
           && (snd visible_range =? snd (_last_visible_range st)))
  then
    let st' :=
      {| list_view := list_view st;
         _items_per_row := _items_per_row st;
         _cached_grid_size := _cached_grid_size st;
         _cached_viewport_width := _cached_viewport_width st;
         _last_visible_range := visible_range;
         model := model st |} in
    let start_index :=
      match model st with Some rows => index rows (fst visible_range) | None => None end in
    let end_index :=
      match model st with Some rows => index rows (snd visible_range) | None => None end in
    match start_index, end_index with
    | Some s, Some e => (st', Some (s, e))
    | _, _ => (st', None)
    end
  else (st, None).

(** What [wheelEvent] asks of the scroll bar. *)
Inductive ScrollAction :=
| SetValue (new_value : Q)                      (* [scrollbar.setValue] *)
| Animate (start_value : Z) (end_value : Q).    (* the property animation *)

(** [wheelEvent]. The factor 1.5 makes the amount a float; on the integers
    a wheel event carries, the product, the subtraction from the scroll
    position and the comparisons are exact, so the amount is kept as the
    rational it is. *)
Definition wheelEvent (delta current_value maximum : Z) : ScrollAction :=
  let scroll_amount : Q :=
    if Z.abs delta >? 240
    then Qmult (inject_Z (delta / 8)) (3 # 2)
    else inject_Z (delta / 8) in
  let new_value : Q :=
    Qmax (inject_Z 0)
         (Qmin (inject_Z maximum) (Qminus (inject_Z current_value) scroll_amount)) in
  if Qle_bool (inject_Z 100) (Qabs scroll_amount)
  then Animate current_value new_value
  else SetValue new_value.

(** The scroll position an action ends at, and whether it is animated. *)
Definition target_value (a : ScrollAction) : Q :=
  match a with SetValue v => v | Animate _ v => v end.

Definition animated (a : ScrollAction) : bool :=
  match a with SetValue _ => false | Animate _ _ => true end.

End GalleryList.

(** ** Characters of a key *)

(** [c in s] for a single character [c]. *)
Fixpoint has_char (c : ascii) (s : string) : bool :=
  match s with
  | EmptyString => false
  | String a s' => Ascii.eqb c a || has_char c s'
  end.
(** * Facts about the dictionaries *)

Module dict_facts.
Section Facts.
Context {V : Type}.
Implicit Types (d : Dict V) (k : string) (v : V).

Lemma eqb_sym k k' : String.eqb k k' = String.eqb k' k.
Proof. apply String.eqb_sym. Qed.

Lemma mem_get k d : dict.mem k d = true <-> exists v, dict.get k d = Some v.
Proof.
  unfold dict.mem. destruct (dict.get k d) as [v|]; split; eauto.
  - discriminate.
  - intros [v' H]; discriminate.
Qed.

Lemma mem_false_get k d : dict.mem k d = false <-> dict.get k d = None.
Proof. unfold dict.mem. destruct (dict.get k d); split; congruence. Qed.

Lemma mem_in_keys k d : dict.mem k d = true <-> In k (dict.keys d).
Proof.
  unfold dict.mem. induction d as [|[k' v'] d IH]; simpl.
  - split; [discriminate | tauto].
  - destruct (String.eqb_spec k k') as [->|Hne].
    + split; auto.
    + rewrite IH. split; [auto | intros [H|H]; congruence].
Qed.

Lemma length_set k v d : (length (dict.set k v d) <= S (length d))%nat.
Proof.
  induction d as [|[k' v'] d IH]; simpl; [lia|].
  destruct (String.eqb k k'); simpl; lia.
Qed.

Lemma get_set_same k v d : dict.get k (dict.set k v d) = Some v.
Proof.
  induction d as [|[k' v'] d IH]; simpl.
  - now rewrite String.eqb_refl.
  - destruct (String.eqb k k') eqn:E; simpl.
    + now rewrite String.eqb_refl.
    + now rewrite E.
Qed.

Lemma get_set_other k k' v d :
  k <> k' -> dict.get k (dict.set k' v d) = dict.get k d.
Proof.
  intros Hne. induction d as [|[k2 v2] d IH]; simpl.
  - destruct (String.eqb_spec k k'); congruence.
  - destruct (String.eqb_spec k' k2) as [->|Hne2]; simpl.
    + destruct (String.eqb_spec k k2); congruence.
    + destruct (String.eqb_spec k k2); congruence.
Qed.

Lemma set_fresh k v d :
  dict.mem k d = false -> dict.set k v d = (d ++ [(k, v)])%list.
Proof.
  unfold dict.mem. induction d as [|[k' v'] d IH]; simpl; [reflexivity|].
  destruct (String.eqb k k'); [discriminate|].
  intros H. now rewrite IH.
Qed.

Lemma keys_set_fresh k v d :
  dict.mem k d = false -> dict.keys (dict.set k v d) = (dict.keys d ++ [k])%list.
Proof.
  intros H. rewrite set_fresh by exact H. unfold dict.keys.
  now rewrite map_app.
Qed.

Lemma keys_set_present k v d :
  dict.mem k d = true -> dict.keys (dict.set k v d) = dict.keys d.
Proof.
  unfold dict.mem. induction d as [|[k' v'] d IH]; simpl; [discriminate|].
  destruct (String.eqb_spec k k') as [->|Hne]; simpl; [reflexivity|].
  intros H. now rewrite IH.
Qed.

Lemma length_del k d : (length (dict.del k d) <= length d)%nat.
Proof. unfold dict.del. apply List.filter_length_le. Qed.

Lemma get_del_same k d : dict.get k (dict.del k d) = None.
Proof.
  unfold dict.del. induction d as [|[k' v'] d IH]; simpl; [reflexivity|].
  destruct (String.eqb k k') eqn:E; simpl; [exact IH|].
  now rewrite E.
Qed.

Lemma get_del_other k k' d :
  k <> k' -> dict.get k (dict.del k' d) = dict.get k d.
Proof.
  intros Hne. unfold dict.del.
  induction d as [|[k2 v2] d IH]; simpl; [reflexivity|].
  destruct (String.eqb_spec k' k2) as [->|Hne2]; simpl.
  - destruct (String.eqb_spec k k2); congruence.
  - destruct (String.eqb_spec k k2); congruence.
Qed.

Lemma mem_set_same k v d : dict.mem k (dict.set k v d) = true.
Proof. unfold dict.mem. now rewrite get_set_same. Qed.

Lemma mem_set_other k k' v d :
  k <> k' -> dict.mem k (dict.set k' v d) = dict.mem k d.
Proof. intros H. unfold dict.mem. now rewrite get_set_other. Qed.

Lemma mem_del_same k d : dict.mem k (dict.del k d) = false.
Proof. unfold dict.mem. now rewrite get_del_same. Qed.

Lemma mem_del_other k k' d :
  k <> k' -> dict.mem k (dict.del k' d) = dict.mem k d.
Proof. intros H. unfold dict.mem. now rewrite get_del_other. Qed.

(** Deleting a list of keys one by one is one filtering pass. *)
Lemma del_all_filter ks d :
  dict.del_all ks d =
  List.filter (fun e => negb (existsb (String.eqb (fst e)) ks)) d.
Proof.
  unfold dict.del_all. revert d.
  induction ks as [|k ks IH]; intros d; simpl.
  - induction d as [|e d IHd]; simpl; [reflexivity|]. now rewrite <- IHd.
  - rewrite IH. unfold dict.del.
    induction d as [|e d IHd]; simpl; [reflexivity|].
    rewrite (String.eqb_sym k (fst e)).
    destruct (String.eqb (fst e) k); simpl.
    + exact IHd.
    + destruct (existsb (String.eqb (fst e)) ks); simpl; [exact IHd|].
      now rewrite IHd.
Qed.

Lemma length_del_all ks d : (length (dict.del_all ks d) <= length d)%nat.
Proof. rewrite del_all_filter. apply List.filter_length_le. Qed.

Lemma get_del_all_kept k ks d :
  ~ In k ks -> dict.get k (dict.del_all ks d) = dict.get k d.
Proof.
  unfold dict.del_all. revert d.
  induction ks as [|k' ks IH]; intros d Hn; simpl; [reflexivity|].
  rewrite IH by (intros H; apply Hn; now right).
  apply get_del_other. intros ->. apply Hn. now left.
Qed.

Lemma get_del_all_gone k ks d :
  In k ks -> dict.get k (dict.del_all ks d) = None.
Proof.
  intros Hin. rewrite del_all_filter.
  induction d as [|[k' v'] d IH]; simpl; [reflexivity|].
  destruct (existsb (String.eqb k') ks) eqn:E; simpl; [exact IH|].
  destruct (String.eqb_spec k k') as [->|Hne]; [|exact IH].
  exfalso. assert (existsb (String.eqb k') ks = true); [|congruence].
  apply existsb_exists. exists k'. split; [exact Hin | apply String.eqb_refl].
Qed.

Lemma filter_none {A} (f : A -> bool) (l : list A) :
  (forall x, In x l -> f x = false) -> List.filter f l = [].
Proof.
  induction l as [|x l IH]; intros H; simpl; [reflexivity|].
  rewrite (H x) by now left. apply IH. intros y Hy. apply H. now right.
Qed.

(** Dropping the first [n] keys drops at least [n] entries. *)
Lemma length_del_firstn n d :
  (n <= length d)%nat ->
  (length (dict.del_all (firstn n (dict.keys d)) d) + n <= length d)%nat.
Proof.
  intros Hn. rewrite del_all_filter.
  set (f := fun e : string * V =>
              negb (existsb (String.eqb (fst e)) (firstn n (dict.keys d)))).
  assert (H0 : List.filter f (firstn n d) = []).
  { apply filter_none. intros e He. unfold f.
    apply negb_false_iff, existsb_exists. exists (fst e). split; [|apply String.eqb_refl].
    unfold dict.keys. rewrite firstn_map. now apply in_map. }
  pose proof (List.filter_length_le f (skipn n d)) as H1.
  rewrite length_skipn in H1.
  assert (H2 : List.filter f d
               = (List.filter f (firstn n d) ++ List.filter f (skipn n d))%list).
  { rewrite <- List.filter_app. now rewrite firstn_skipn. }
  rewrite H2, H0. simpl. lia.
Qed.

(** With distinct keys, dropping the first [n] keys leaves exactly the
    entries after the first [n], in their order. *)
Lemma del_firstn_skipn n d :
  NoDup (dict.keys d) ->
  dict.del_all (firstn n (dict.keys d)) d = skipn n d.
Proof.
  rewrite del_all_filter. revert n.
  induction d as [|[k v] d IH]; intros n Hnd; simpl.
  - now destruct n.
  - destruct n as [|n]; simpl.
    + f_equal. clear. induction d as [|e d IHd]; simpl; [reflexivity|].
      now rewrite IHd.
    + rewrite String.eqb_refl. simpl.
      inversion Hnd as [|? ? Hnotin Hnd']; subst.
      rewrite <- (IH n Hnd').
      apply List.filter_ext_in. intros [k' v'] Hin. simpl.
      destruct (String.eqb_spec k' k) as [->|Hne]; [|reflexivity].
      exfalso. apply Hnotin, list_elem_of_In. unfold dict.keys.
      change k with (fst (k, v')). now apply in_map.
Qed.

Lemma NoDup_keys_set k v d :
  NoDup (dict.keys d) -> NoDup (dict.keys (dict.set k v d)).
Proof.
  intros Hnd. destruct (dict.mem k d) eqn:E.
  - now rewrite keys_set_present.
  - rewrite keys_set_fresh by exact E.
    apply NoDup_app. split; [exact Hnd|]. split.
    + intros x Hx [->|[]]%list_elem_of_In. 
      apply list_elem_of_In, mem_in_keys in Hx. congruence.
    + apply NoDup_singleton.
Qed.

(** Filtering on the keys keeps the keys distinct. *)
Lemma NoDup_keys_filter (f : string -> bool) d :
  NoDup (dict.keys d) ->
  NoDup (dict.keys (List.filter (fun e => f (fst e)) d)).
Proof.
  induction d as [|[k v] d IH]; intros Hnd; simpl; [exact Hnd|].
  inversion Hnd as [|? ? Hnotin Hnd']; subst.
  destruct (f k); simpl; [|now apply IH].
  constructor; [|now apply IH].
  intros Hin. apply Hnotin. apply list_elem_of_In in Hin.
  apply list_elem_of_In. unfold dict.keys in *.
  apply in_map_iff in Hin as ([k' v'] & Hk & Hin).
  apply List.filter_In in Hin as [Hin _].
  apply in_map_iff. now exists (k', v').
Qed.

Lemma NoDup_keys_del_all ks d :
  NoDup (dict.keys d) -> NoDup (dict.keys (dict.del_all ks d)).
Proof.
  rewrite del_all_filter.
  apply (NoDup_keys_filter (fun k => negb (existsb (String.eqb k) ks))).
Qed.
End Facts.
End dict_facts.

(** * Facts about the strings of the keys *)

Module Py_facts.

Lemma length_append (a b : string) :
  String.length (a +:+ b) = (String.length a + String.length b)%nat.
Proof.
  induction a as [|c a IH]; [reflexivity|].
  change (String c a +:+ b) with (String c (a +:+ b)). simpl. now rewrite IH.
Qed.

Lemma append_inv_tail (a b s : string) : a +:+ s = b +:+ s -> a = b.
Proof.
  revert b. induction a as [|c a IH]; intros [|c' b] H.
  - reflexivity.
  - apply (f_equal String.length) in H. rewrite !length_append in H.
    simpl in H. lia.
  - apply (f_equal String.length) in H. rewrite !length_append in H.
    simpl in H. lia.
  - change (String c (a +:+ s) = String c' (b +:+ s)) in H.
    injection H as -> H. f_equal. now apply IH.
Qed.

Lemma str_int_inj (a b : Z) : Py.str_int a = Py.str_int b -> a = b.
Proof. unfold Py.str_int. apply pretty_Z_inj. Qed.

(** Python's [hash] is the identity on the non-negative integers below its
    modulus. *)
Lemma hash_int_small (n : Z) :
  0 <= n < Py.hash_modulus -> Py.hash_int n = n.
Proof.
  intros [H0 H1]. unfold Py.hash_int.
  assert (E : Z.sgn n * (Z.abs n mod Py.hash_modulus) = n).
  { rewrite Z.abs_eq by lia. rewrite Z.mod_small by lia.
    destruct (Z.eq_dec n 0) as [->|Hn]; [reflexivity|].
    rewrite Z.sgn_pos by lia. lia. }
  rewrite E. destruct (Z.eqb_spec n (-1)); [lia | reflexivity].
Qed.

(** The fragment [_onImageReady] looks for in the pixmap keys: everything
    after the prefix ["img_"] of an image-cache key. *)
Lemma split_img (rest : string) :
  nth_error (Py.split_once "_" ("img_" +:+ rest)) 1 = Some rest.
Proof. reflexivity. Qed.

End Py_facts.

(** * Facts about the delegate's methods *)

Section Delegate_facts.
Variable scaling_target : QImage -> QSize -> QSize.
Variable scaled : QImage -> QSize -> TransformationMode -> option QImage.

Local Abbreviation paint := (paint scaling_target).
Local Abbreviation load_image := (load_image scaling_target).
Local Abbreviation paints := (paints scaling_target).

(** The image-cache key starts with ["img_"] and depends on the delegate
    through its item size only. *)
Lemma image_key_prefix i d :
  exists rest, _getImageCacheKey i d = "img_" +:+ rest.
Proof. unfold _getImageCacheKey. eauto. Qed.

Lemma image_key_size i d d' :
  _item_size d = _item_size d' ->
  _getImageCacheKey i d = _getImageCacheKey i d'.
Proof. unfold _getImageCacheKey. now intros ->. Qed.

(** [load_image] either leaves the pending loads alone and hands over no
    job, or registers the key and hands over one job for it. *)
Lemma load_image_cases i d :
  let K := _getImageCacheKey i d in
  (exists w, load_image i d = (w, _pending_loads d, None)) \/
  (exists w img,
      DecorationRole i = Some img /\ isNull img = false /\
      dict.get K (_image_cache d) = None /\
      dict.mem K (_pending_loads d) = false /\
      load_image i d =
        (w, dict.set K widget_ref (_pending_loads d),
         Some (mkJob K img (scaling_target img (_item_size d))))).
Proof.
  intros K. unfold load_image. fold K.
  destruct (dict.get K (_image_cache d)) as [c|] eqn:Ec; [left; eauto|].
  destruct (DecorationRole i) as [img|] eqn:Ei; [|left; eauto].
  destruct (isNull img) eqn:En; simpl; [left; eauto|].
  destruct (dict.mem K (_pending_loads d)) eqn:Ep; simpl; [left; eauto|].
  right. eexists. exists img. repeat split; assumption || reflexivity.
Qed.

Lemma paint_image_cache o i d :
  _image_cache (fst (paint o i d)) = _image_cache d.
Proof.
  unfold paint. destruct (dict.get _ (_pixmap_cache d)); [reflexivity|].
  destruct (load_image i d) as [[w p] j]. reflexivity.
Qed.

Lemma paint_item_size o i d :
  _item_size (fst (paint o i d)) = _item_size d.
Proof.
  unfold paint. destruct (dict.get _ (_pixmap_cache d)); [reflexivity|].
  destruct (load_image i d) as [[w p] j]. reflexivity.
Qed.

Lemma paint_max_sizes o i d :
  _max_cache_size (fst (paint o i d)) = _max_cache_size d /\
  _max_image_cache_size (fst (paint o i d)) = _max_image_cache_size d.
Proof.
  unfold paint. destruct (dict.get _ (_pixmap_cache d)); [now split|].
  destruct (load_image i d) as [[w p] j]. now split.
Qed.

(** What [paint] does to the pending loads, and the job it dispatches. *)
Lemma paint_pending_cases o i d :
  let K := _getImageCacheKey i d in
  (dispatched (snd (paint o i d)) = None /\
   _pending_loads (fst (paint o i d)) = _pending_loads d) \/
  (exists img,
      DecorationRole i = Some img /\ isNull img = false /\
      dict.get K (_image_cache d) = None /\
      dict.mem K (_pending_loads d) = false /\
      cache_hit (snd (paint o i d)) = false /\
      dispatched (snd (paint o i d)) =
        Some (mkJob K img (scaling_target img (_item_size d))) /\
      _pending_loads (fst (paint o i d)) =
        dict.set K widget_ref (_pending_loads d)).
Proof.
  intros K. unfold paint.
  destruct (dict.get _ (_pixmap_cache d)); [left; now split|].
  destruct (load_image_cases i d) as [[w E]|(w & img & H1 & H2 & H3 & H4 & E)];
    rewrite E; simpl.
  - left. now split.
  - right. exists img. repeat split; assumption || reflexivity.
Qed.

(** The pixmap cache after a [paint] that started within the bound of 200
    is within it again. *)
Lemma paint_pixmap_bound o i d :
  _max_cache_size d = 200 ->
  dict.len (_pixmap_cache d) <= 200 ->
  dict.len (_pixmap_cache (fst (paint o i d))) <= 200.
Proof.
  intros Hmax Hlen. unfold paint.
  destruct (dict.get _ (_pixmap_cache d)); [exact Hlen|].
  destruct (load_image i d) as [[w p] j]. simpl.
  rewrite Hmax. unfold dict.len in *.
  pose proof (dict_facts.length_set
    (_getCacheKey i (State_Selected o) d)
    (render (ItemRenderWidget.setGeometry (rect o)
               (ItemRenderWidget.set_selected (State_Selected o) w)))) as Hset.
  destruct (Z.geb_spec (Z.of_nat (length (_pixmap_cache d))) 200) as [Hge|Hlt].
  - pose proof (dict_facts.length_del_firstn 20 (_pixmap_cache d)) as Hdel.
    specialize (Hset (dict.del_all (firstn 20 (dict.keys (_pixmap_cache d)))
                                   (_pixmap_cache d))).
    lia.
  - specialize (Hset (_pixmap_cache d)). lia.
Qed.

(** A completion whose key carries the ["img_"] prefix is handled without
    an exception, and its key is no longer pending afterwards. *)
Lemma onImageReady_normal rest img d :
  exists d',
    _onImageReady ("img_" +:+ rest) img d = Normal d' /\
    _item_size d' = _item_size d /\
    _max_cache_size d' = _max_cache_size d /\
    _max_image_cache_size d' = _max_image_cache_size d /\
    _image_cache d' =
      (if dict.len (_image_cache d) <? _max_image_cache_size d
       then dict.set ("img_" +:+ rest) img (_image_cache d)
       else _image_cache d) /\
    _pixmap_cache d' =
      dict.del_all
        (List.filter (fun k => Py.contains rest k) (dict.keys (_pixmap_cache d)))
        (_pixmap_cache d) /\
    _pending_loads d' =
      (if dict.mem ("img_" +:+ rest) (_pending_loads d)
       then dict.del ("img_" +:+ rest) (_pending_loads d)
       else _pending_loads d).
Proof.
  unfold _onImageReady. rewrite Py_facts.split_img.
  destruct (_pixmap_cache d) as [|e pc] eqn:E.
  - eexists. split; [reflexivity|]. simpl. repeat split; reflexivity.
  - eexists. split; [reflexivity|]. simpl. repeat split; reflexivity.
Qed.

Lemma onImageReady_not_pending rest img d d' :
  _onImageReady ("img_" +:+ rest) img d = Normal d' ->
  dict.mem ("img_" +:+ rest) (_pending_loads d') = false.
Proof.
  destruct (onImageReady_normal rest img d) as (d0 & E & _ & _ & _ & _ & _ & Hp).
  rewrite E. intros [= <-]. rewrite Hp.
  destruct (dict.mem _ (_pending_loads d)) eqn:Em; [|exact Em].
  apply dict_facts.mem_del_same.
Qed.
End Delegate_facts.

(** * The worker and the completion handler *)

Section Worker.
Variable scaling_target : QImage -> QSize -> QSize.
Variable scaled : QImage -> QSize -> TransformationMode -> option QImage.

(** [processImage] emits one signal, for the key it was given. *)
Lemma processImage_one key image target_size :
  exists result, processImage scaled key image target_size = [(key, result)].
Proof.
  unfold processImage. destruct (isNull image); [eauto|].
  destruct (scaled image target_size _); eauto.
Qed.

Lemma step_WorkerRuns s j rest r :
  worker_queue s = j :: rest ->
  processImage scaled (job_key j) (job_image j) (job_target j)
    = [(job_key j, r)] ->
  step scaling_target scaled s WorkerRuns =
    {| view := view s; worker_queue := rest;
       ready_queue := (ready_queue s ++ [(job_key j, r)])%list |}.
Proof. intros Hq Hr. unfold step. now rewrite Hq, Hr. Qed.

Lemma step_ImageReady s k img rest :
  ready_queue s = (k, img) :: rest ->
  step scaling_target scaled s ImageReady =
    {| view :=
         {| gridSize := gridSize (view s);
            _item_delegate :=
              delegate_of (_onImageReady k img (_item_delegate (view s))) |};
       worker_queue := worker_queue s; ready_queue := rest |}.
Proof. intros Hq. unfold step. now rewrite Hq. Qed.
End Worker.

(** * Facts about runs of the system *)

Lemma count_key_app k l1 l2 :
  count_key k (l1 ++ l2) = (count_key k l1 + count_key k l2)%nat.
Proof. unfold count_key. now rewrite List.filter_app, length_app. Qed.

Lemma count_key_cons k k' l :
  count_key k (k' :: l) =
  ((if String.eqb k k' then 1 else 0) + count_key k l)%nat.
Proof. unfold count_key. simpl. now destruct (String.eqb k k'). Qed.

Lemma count_key_pos k l : In k l <-> (0 < count_key k l)%nat.
Proof.
  induction l as [|k' l IH]; simpl.
  - unfold count_key. simpl. split; [tauto | lia].
  - rewrite count_key_cons. destruct (String.eqb_spec k k') as [->|Hne].
    + split; [lia | auto].
    + rewrite <- IH. simpl. split; [intros [H|H]; congruence || auto | auto].
Qed.

Section System_facts.
Variable scaling_target : QImage -> QSize -> QSize.
Variable scaled : QImage -> QSize -> TransformationMode -> option QImage.

Local Abbreviation sstep := (step scaling_target scaled).
Local Abbreviation srun := (run scaling_target scaled).
Local Abbreviation spaint := (paint scaling_target).

Lemma run_app s evs1 evs2 : srun s (evs1 ++ evs2) = srun (srun s evs1) evs2.
Proof. unfold run. apply fold_left_app. Qed.

Lemma run_snoc s evs ev : srun s (evs ++ [ev]) = sstep (srun s evs) ev.
Proof. now rewrite run_app. Qed.

(** Induction on the runs from the initial state. *)
Lemma run_ind (P : System -> Prop) :
  P system_init ->
  (forall s ev, P s -> P (sstep s ev)) ->
  forall evs, P (srun system_init evs).
Proof.
  intros H0 Hstep evs. induction evs as [|ev evs IH] using rev_ind.
  - exact H0.
  - rewrite run_snoc. now apply Hstep.
Qed.

(** The state after a [Paint] event, in terms of [spaint]. *)
Lemma step_Paint s o i :
  sstep s (Paint o i) =
    {| view := {| gridSize := gridSize (view s);
                  _item_delegate := fst (spaint o i (_item_delegate (view s))) |};
       worker_queue :=
         (worker_queue s ++
          match dispatched (snd (spaint o i (_item_delegate (view s)))) with
          | Some j => [j]
          | None => []
          end)%list;
       ready_queue := ready_queue s |}.
Proof.
  unfold step.
  now destruct (paint scaling_target o i (_item_delegate (view s))).
Qed.

(** [setGridSize] leaves the pending loads and the configured bounds
    alone; it either keeps the delegate or empties both caches. *)
Lemma setGridSize_delegate sz v :
  let d := _item_delegate v in
  let d' := _item_delegate (setGridSize sz v) in
  _pending_loads d' = _pending_loads d /\
  _max_cache_size d' = _max_cache_size d /\
  _max_image_cache_size d' = _max_image_cache_size d /\
  (d' = d \/ (_pixmap_cache d' = [] /\ _image_cache d' = [] /\ _item_size d' = sz)).
Proof.
  unfold setGridSize. destruct (negb (QSize_eqb (gridSize v) sz)); simpl.
  - repeat split; try reflexivity. right. now repeat split.
  - repeat split; try reflexivity. now left.
Qed.

(** The completion handler on any key: the bounds are kept, the pixmap
    cache does not grow, and the image cache grows only below its bound. *)
Lemma onImageReady_bounded k img d :
  bounded d -> bounded (delegate_of (_onImageReady k img d)).
Proof.
  intros (Hm1 & Hm2 & Hp & Hi). unfold _onImageReady.
  set (images := if dict.len (_image_cache d) <? _max_image_cache_size d
                 then dict.set k img (_image_cache d) else _image_cache d).
  assert (Himg : dict.len images <= 100).
  { subst images. destruct (Z.ltb_spec (dict.len (_image_cache d))
                              (_max_image_cache_size d)); [|exact Hi].
    pose proof (dict_facts.length_set k img (_image_cache d)).
    unfold dict.len in *. lia. }
  destruct (_pixmap_cache d) as [|e pc] eqn:Epc.
  - simpl. unfold bounded. simpl. repeat split; assumption.
  - destruct (nth_error (Py.split_once "_" k) 1) as [fragment|].
    + unfold bounded.
      cbn [delegate_of _max_cache_size _max_image_cache_size
           _pixmap_cache _image_cache].
      repeat split; try assumption.
      pose proof (dict_facts.length_del_all
        (List.filter (fun k0 => Py.contains fragment k0) (dict.keys (e :: pc)))
        (e :: pc)).
      unfold dict.len in *. lia.
    + simpl. unfold bounded. simpl. repeat split; assumption.
Qed.

Lemma step_bounded s ev :
  bounded (_item_delegate (view s)) ->
  bounded (_item_delegate (view (sstep s ev))).
Proof.
  intros Hb. pose proof Hb as (Hm1 & Hm2 & Hp & Hi).
  destruct ev as [o i|calc|e calc| | |].
  - rewrite step_Paint. simpl.
    destruct (paint_max_sizes scaling_target o i (_item_delegate (view s)))
      as [E1 E2].
    unfold bounded. rewrite E1, E2, paint_image_cache.
    repeat split; try assumption. now apply paint_pixmap_bound.
  - simpl. unfold _updateGridSize.
    destruct (setGridSize_delegate calc (view s)) as (_ & E1 & E2 & [E|(Ep & Ei & _)]).
    + now rewrite E.
    + unfold bounded. rewrite E1, E2, Ep, Ei. repeat split; try assumption;
        unfold dict.len; simpl; lia.
  - simpl. unfold resizeEvent.
    destruct (Z.abs _ >? 50); [|exact Hb]. simpl.
    destruct (setGridSize_delegate calc (view s)) as (_ & E1 & E2 & _).
    unfold bounded, _updateGridSize. simpl. rewrite E1, E2.
    repeat split; try assumption; unfold dict.len; simpl; lia.
  - simpl. unfold bounded. simpl.
    repeat split; try assumption; unfold dict.len; simpl; lia.
  - simpl. destruct (worker_queue s); exact Hb.
  - simpl. destruct (ready_queue s) as [|[k img] rest]; [exact Hb|].
    simpl. now apply onImageReady_bounded.
Qed.

(** *** How each event changes the keys in flight and the pending loads *)

Lemma flight_Paint s o i :
  let d := _item_delegate (view s) in
  let s' := sstep s (Paint o i) in
  let K := _getImageCacheKey i d in
  (in_flight s' = in_flight s /\
   _pending_loads (_item_delegate (view s')) = _pending_loads d) \/
  (dict.mem K (_pending_loads d) = false /\
   (forall k, count_key k (in_flight s') =
              ((if String.eqb k K then 1 else 0) + count_key k (in_flight s))%nat) /\
   _pending_loads (_item_delegate (view s')) =
     dict.set K widget_ref (_pending_loads d)).
Proof.
  intros d s' K. subst s'. rewrite step_Paint. unfold in_flight. simpl.
  destruct (paint_pending_cases scaling_target o i d)
    as [[Hd Hp]|(img & _ & _ & _ & Hm & _ & Hd & Hp)]; fold d; rewrite Hd, Hp.
  - left. now rewrite app_nil_r.
  - right. split; [exact Hm|]. split; [|reflexivity].
    intros k. rewrite map_app, !count_key_app. simpl.
    rewrite count_key_cons. change (count_key k []) with 0%nat. fold K. lia.
Qed.

Lemma flight_WorkerRuns s :
  let s' := sstep s WorkerRuns in
  view s' = view s /\
  forall k, count_key k (in_flight s') = count_key k (in_flight s).
Proof.
  simpl. destruct (worker_queue s) as [|j rest] eqn:Eq; [now split|].
  split; [reflexivity|]. intros k. unfold in_flight. simpl. rewrite Eq.
  destruct (processImage_one scaled (job_key j) (job_image j) (job_target j))
    as [r ->].
  simpl. rewrite map_app, !count_key_app, !count_key_cons. simpl.
  rewrite ?count_key_app, ?count_key_cons. change (count_key k []) with 0%nat. lia.
Qed.

Lemma flight_ImageReady s k0 img rest :
  ready_queue s = (k0, img) :: rest ->
  let s' := sstep s ImageReady in
  _item_delegate (view s') =
    delegate_of (_onImageReady k0 img (_item_delegate (view s))) /\
  forall k, count_key k (in_flight s) =
            ((if String.eqb k k0 then 1 else 0) + count_key k (in_flight s'))%nat.
Proof.
  intros Eq. simpl. rewrite Eq. simpl. split; [reflexivity|].
  intros k. unfold in_flight. simpl. rewrite Eq. simpl.
  rewrite !count_key_app, count_key_cons. lia.
Qed.

Lemma step_keys_wellformed s ev :
  keys_wellformed s -> keys_wellformed (sstep s ev).
Proof.
  intros Hwf k Hin. apply count_key_pos in Hin.
  destruct ev as [o i|calc|e calc| | |].
  - destruct (flight_Paint s o i) as [[E _]|(_ & Hc & _)].
    + rewrite E in Hin. now apply Hwf, count_key_pos.
    + rewrite Hc in Hin.
      destruct (String.eqb k (_getImageCacheKey i (_item_delegate (view s))))
        eqn:Ek.
      * apply String.eqb_eq in Ek. rewrite Ek. apply image_key_prefix.
      * now apply Hwf, count_key_pos.
  - now apply Hwf, count_key_pos.
  - now apply Hwf, count_key_pos.
  - now apply Hwf, count_key_pos.
  - destruct (flight_WorkerRuns s) as [_ Hc]. rewrite Hc in Hin.
    now apply Hwf, count_key_pos.
  - destruct (ready_queue s) as [|[k0 img] rest] eqn:Eq.
    + simpl in Hin. rewrite Eq in Hin. now apply Hwf, count_key_pos.
    + destruct (flight_ImageReady s k0 img rest Eq) as [_ Hc].
      apply Hwf, count_key_pos. rewrite Hc. lia.
Qed.

Lemma init_keys_wellformed : keys_wellformed system_init.
Proof. intros k []. Qed.

(** The head of the ready queue carries an image-cache key, so its
    delivery ends normally and removes the key from the pending loads. *)
Lemma ImageReady_pending s k0 img rest :
  keys_wellformed s ->
  ready_queue s = (k0, img) :: rest ->
  _pending_loads (_item_delegate (view (sstep s ImageReady))) =
    (if dict.mem k0 (_pending_loads (_item_delegate (view s)))
     then dict.del k0 (_pending_loads (_item_delegate (view s)))
     else _pending_loads (_item_delegate (view s))).
Proof.
  intros Hwf Eq. destruct (Hwf k0) as [r ->].
  { unfold in_flight. rewrite Eq. apply in_or_app. right. now left. }
  destruct (flight_ImageReady s _ img rest Eq) as [-> _].
  destruct (onImageReady_normal r img (_item_delegate (view s)))
    as (d' & -> & _ & _ & _ & _ & _ & Hp).
  exact Hp.
Qed.

Lemma mem_after_ImageReady s k0 img rest k :
  keys_wellformed s ->
  ready_queue s = (k0, img) :: rest ->
  dict.mem k (_pending_loads (_item_delegate (view (sstep s ImageReady)))) =
    (if String.eqb k k0 then false
     else dict.mem k (_pending_loads (_item_delegate (view s)))).
Proof.
  intros Hwf Eq. rewrite (ImageReady_pending s k0 img rest Hwf Eq).
  destruct (String.eqb_spec k k0) as [->|Hne].
  - destruct (dict.mem k0 (_pending_loads (_item_delegate (view s)))) eqn:Em;
      [apply dict_facts.mem_del_same | exact Em].
  - destruct (dict.mem k0 (_pending_loads (_item_delegate (view s))));
      [now apply dict_facts.mem_del_other | reflexivity].
Qed.

(** *** No stale entry, along every run *)

Lemma step_no_stale_entry s ev :
  keys_wellformed s -> no_stale_entry s -> no_stale_entry (sstep s ev).
Proof.
  intros Hwf Hns k Hm.
  destruct ev as [o i|calc|e calc| | |].
  - destruct (flight_Paint s o i) as [[E Hp]|(_ & Hc & Hp)].
    + rewrite E. apply Hns. now rewrite <- Hp.
    + rewrite Hc. rewrite Hp in Hm.
      destruct (String.eqb_spec k
        (_getImageCacheKey i (_item_delegate (view s)))) as [->|Hne]; [lia|].
      rewrite dict_facts.mem_set_other in Hm by exact Hne.
      specialize (Hns k Hm). lia.
  - apply Hns. simpl in Hm. unfold _updateGridSize in Hm.
    destruct (setGridSize_delegate calc (view s)) as (E & _).
    now rewrite E in Hm.
  - simpl in Hm. unfold resizeEvent in Hm.
    destruct (Z.abs _ >? 50); [discriminate Hm | now apply Hns].
  - discriminate Hm.
  - destruct (flight_WorkerRuns s) as [Ev Hc]. rewrite Hc. apply Hns.
    now rewrite <- Ev.
  - destruct (ready_queue s) as [|[k0 img] rest] eqn:Eq.
    + simpl in Hm |- *. rewrite Eq in Hm |- *. now apply Hns.
    + rewrite (mem_after_ImageReady s k0 img rest k Hwf Eq) in Hm.
      destruct (flight_ImageReady s k0 img rest Eq) as [_ Hc].
      destruct (String.eqb_spec k k0) as [->|Hne]; [discriminate|].
      specialize (Hns k Hm). rewrite Hc in Hns.
      destruct (String.eqb_spec k k0); [contradiction | lia].
Qed.

(** *** Deduplication, along the runs that do not clear the tracker *)

Lemma step_deduplicated s ev :
  clears_tracker ev = false ->
  keys_wellformed s -> deduplicated s -> deduplicated (sstep s ev).
Proof.
  intros Hev Hwf Hdd k. destruct (Hdd k) as [Hle Hpend].
  destruct ev as [o i|calc|e calc| | |]; try discriminate Hev.
  - destruct (flight_Paint s o i) as [[E Hp]|(Hm & Hc & Hp)].
    + rewrite E, Hp. now split.
    + rewrite Hc, Hp.
      destruct (String.eqb_spec k
        (_getImageCacheKey i (_item_delegate (view s)))) as [->|Hne].
      * split; [|intros _; apply dict_facts.mem_set_same].
        destruct (count_key _ (in_flight s)) as [|n] eqn:En; [lia|].
        rewrite Hpend in Hm by lia. discriminate.
      * rewrite dict_facts.mem_set_other by exact Hne. now split.
  - simpl. unfold _updateGridSize.
    destruct (setGridSize_delegate calc (view s)) as (E & _).
    rewrite E. now split.
  - simpl in Hev |- *. unfold resizeEvent. rewrite Hev. now split.
  - destruct (flight_WorkerRuns s) as [Ev Hc]. rewrite Hc, Ev. now split.
  - destruct (ready_queue s) as [|[k0 img] rest] eqn:Eq.
    + simpl. rewrite Eq. now split.
    + rewrite (mem_after_ImageReady s k0 img rest k Hwf Eq).
      destruct (flight_ImageReady s k0 img rest Eq) as [_ Hc].
      rewrite Hc in Hle, Hpend.
      destruct (String.eqb_spec k k0) as [->|Hne].
      * split; [lia|]. intros H. lia.
      * split; [lia|]. intros H. apply Hpend. lia.
Qed.

(** *** The keys of the pixmap cache stay distinct *)

Lemma step_pixmap_keys_distinct s ev :
  NoDup (dict.keys (_pixmap_cache (_item_delegate (view s)))) ->
  NoDup (dict.keys (_pixmap_cache (_item_delegate (view (sstep s ev))))).
Proof.
  intros Hnd. destruct ev as [o i|calc|e calc| | |].
  - rewrite step_Paint. simpl. unfold paint.
    destruct (dict.get _ (_pixmap_cache (_item_delegate (view s))));
      [exact Hnd|].
    destruct (load_image scaling_target i (_item_delegate (view s)))
      as [[w pend] j].
    cbn [fst _pixmap_cache]. apply dict_facts.NoDup_keys_set.
    destruct (dict.len _ >=? _); [|exact Hnd].
    now apply dict_facts.NoDup_keys_del_all.
  - simpl. unfold _updateGridSize.
    destruct (setGridSize_delegate calc (view s)) as (_ & _ & _ & [E|(Ep & _)]).
    + now rewrite E.
    + rewrite Ep. constructor.
  - simpl. unfold resizeEvent.
    destruct (Z.abs _ >? 50); [constructor | exact Hnd].
  - constructor.
  - simpl. now destruct (worker_queue s).
  - simpl. destruct (ready_queue s) as [|[k img] rest]; [exact Hnd|].
    simpl. unfold _onImageReady.
    destruct (_pixmap_cache (_item_delegate (view s))) as [|e pc] eqn:Epc.
    + constructor.
    + destruct (nth_error (Py.split_once "_" k) 1); simpl; [|exact Hnd].
      now apply dict_facts.NoDup_keys_del_all.
Qed.

Lemma reachable_pixmap_keys_distinct evs :
  NoDup (dict.keys (_pixmap_cache
           (_item_delegate (view (srun system_init evs))))).
Proof.
  apply (run_ind (fun s =>
           NoDup (dict.keys (_pixmap_cache (_item_delegate (view s)))))).
  - constructor.
  - intros s ev. apply step_pixmap_keys_distinct.
Qed.
End System_facts.

(** * Key derivation *)

(** C10. The key of the rendered-payload cache is not injective in the
    item's name and type: name "a_b" with type "c" and name "a" with type
    "b_c", with the same image, selection state and item size, derive the
    same underscore-joined key, so the two items share one cache entry. *)
Theorem cache_key_not_injective :
  exists (i1 i2 : ModelIndex) (sel : bool) (d : ModelGalleryItemDelegate),
    i1 = mkIndex "a_b" "c" (Some Ex.imageA) /\
    i2 = mkIndex "a" "b_c" (Some Ex.imageA) /\
    (NameRole i1, TypeRole i1) <> (NameRole i2, TypeRole i2) /\
    DecorationRole i1 = DecorationRole i2 /\
    _getCacheKey i1 sel d = _getCacheKey i2 sel d /\
    (* painting the first item makes the second one a cache hit *)
    (let d1 := fst (paint Ex.target Ex.cell i1 __init__) in
     let p2 := snd (paint Ex.target Ex.cell i2 d1) in
     cache_hit p2 = true /\ px_name (drawn p2) = "a_b").
Proof.
  exists (mkIndex "a_b" "c" (Some Ex.imageA)),
         (mkIndex "a" "b_c" (Some Ex.imageA)), false, __init__.
  repeat split; try reflexivity. discriminate.
Qed.

(** C8, the claim as stated fails: two valid images with different cache
    keys and different pixels, under the same item identity, size and
    selection state, derive the same key in both caches, because Python's
    [hash] reduces the cache key modulo [2^61 - 1]. *)
Lemma changed_image_same_key :
  let i1 := mkIndex "A" "B" (Some Ex.image_low) in
  let i2 := mkIndex "A" "B" (Some Ex.image_high) in
  cacheKey Ex.image_low <> cacheKey Ex.image_high /\
  QImage_eqb Ex.image_low Ex.image_high = false /\
  is_valid (DecorationRole i1) = true /\
  is_valid (DecorationRole i2) = true /\
  _getCacheKey i1 false __init__ = _getCacheKey i2 false __init__ /\
  _getImageCacheKey i1 __init__ = _getImageCacheKey i2 __init__.
Proof. vm_compute. repeat split; try reflexivity; discriminate. Qed.

(** C8, amended. Key derivation is a function of the item's name and type,
    the image's fingerprint, the selection flag and the item size alone: two
    calls that agree on these return the same key, whatever else the
    delegate holds. The fingerprint of a valid image is Python's [hash] of
    Qt's [cacheKey()], a generation number of the image data and not an
    address; two valid images whose cache keys differ and lie in
    [0, 2^61 - 1), where [hash] is the identity, derive different keys under
    the same item identity, selection flag and size. *)
Theorem key_derivation_deterministic
    (i1 i2 : ModelIndex) (sel : bool) (d1 d2 : ModelGalleryItemDelegate) :
  NameRole i1 = NameRole i2 ->
  TypeRole i1 = TypeRole i2 ->
  _item_size d1 = _item_size d2 ->
  (image_key (DecorationRole i1) = image_key (DecorationRole i2) ->
     _getCacheKey i1 sel d1 = _getCacheKey i2 sel d2 /\
     _getImageCacheKey i1 d1 = _getImageCacheKey i2 d2) /\
  (forall img1 img2 : QImage,
     DecorationRole i1 = Some img1 -> isNull img1 = false ->
     DecorationRole i2 = Some img2 -> isNull img2 = false ->
     0 <= cacheKey img1 < 2 ^ 61 - 1 ->
     0 <= cacheKey img2 < 2 ^ 61 - 1 ->
     cacheKey img1 <> cacheKey img2 ->
     _getCacheKey i1 sel d1 <> _getCacheKey i2 sel d2 /\
     _getImageCacheKey i1 d1 <> _getImageCacheKey i2 d2).
Proof.
  intros Hn Ht Hs. unfold _getCacheKey, _getImageCacheKey.
  rewrite Hn, Ht, Hs. split.
  - intros ->. now split.
  - intros img1 img2 E1 N1 E2 N2 R1 R2 Hne. unfold image_key.
    rewrite E1, E2, N1, N2.
    rewrite !Py_facts.hash_int_small by exact R1 || exact R2.
    split; intros H.
    + do 4 apply String.app_inj in H.
      apply Py_facts.append_inv_tail, Py_facts.str_int_inj in H. contradiction.
    + apply String.app_inj in H.
      apply Py_facts.append_inv_tail, Py_facts.str_int_inj in H. contradiction.
Qed.

Lemma key_derivation_deterministic_witness :
  let i1 := mkIndex "A" "B" (Some Ex.imageA) in
  let i2 := mkIndex "A" "B" (Some (mkQImage 8 (Some (mkBitmap 600 800 43)))) in
  _getCacheKey i1 false __init__ = _getCacheKey i1 false __init__ /\
  _getCacheKey i1 false __init__ <> _getCacheKey i2 false __init__ /\
  _getImageCacheKey i1 __init__ <> _getImageCacheKey i2 __init__.
Proof.
  intros i1 i2. split.
  - apply (key_derivation_deterministic i1 i1 false __init__ __init__);
      reflexivity.
  - apply (key_derivation_deterministic i1 i2 false __init__ __init__
             eq_refl eq_refl eq_refl)
      with (img1 := Ex.imageA) (img2 := mkQImage 8 (Some (mkBitmap 600 800 43)));
      try reflexivity; simpl; lia.
Defined.

(** * Completions and the pixmap cache *)

(** C1, evaluated on the code. Item "A" is painted in an empty delegate, the
    worker scales its image and the completion is delivered: the processed
    image is in the image cache and the key is no longer pending, but the
    pixmap built during loading is still cached under the item's key, since
    the fragment "7_450_650" that [_onImageReady] looks for does not occur
    in "A_B_7_False_450_650". The next request for the item is a cache hit
    that returns the loading placeholder, not the processed image. *)
Theorem completion_leaves_stale_pixmap
    (scaling_target : QImage -> QSize -> QSize)
    (scaled : QImage -> QSize -> TransformationMode -> option QImage) :
  let s1 := step scaling_target scaled system_init (Paint Ex.cell Ex.itemA) in
  let s2 := run scaling_target scaled s1 [WorkerRuns; ImageReady] in
  let d2 := _item_delegate (view s2) in
  let p := snd (paint scaling_target Ex.cell Ex.itemA d2) in
  _getImageCacheKey Ex.itemA d2 = "img_7_450_650" /\
  _getCacheKey Ex.itemA false d2 = "A_B_7_False_450_650" /\
  worker_queue s2 = [] /\ ready_queue s2 = [] /\
  (exists processed,
      dict.get "img_7_450_650" (_image_cache d2) = Some processed) /\
  dict.mem "img_7_450_650" (_pending_loads d2) = false /\
  dict.keys (_pixmap_cache d2) = ["A_B_7_False_450_650"] /\
  cache_hit p = true /\
  px_image (drawn p) = LoadingPlaceholder loading_fill.
Proof.
  intros s1 s2 d2 p.
  destruct (processImage_one scaled "img_7_450_650" Ex.imageA
              (scaling_target Ex.imageA (mkQSize 450 650))) as [r Hr].
  assert (E2 : s2 =
    {| view :=
         {| gridSize := mkQSize 450 650;
            _item_delegate :=
              delegate_of
                (_onImageReady "img_7_450_650" r (_item_delegate (view s1))) |};
       worker_queue := []; ready_queue := [] |}).
  { subst s2. unfold run. cbn [fold_left].
    rewrite (step_WorkerRuns scaling_target scaled s1
               (mkJob "img_7_450_650" Ex.imageA
                  (scaling_target Ex.imageA (mkQSize 450 650))) [] r
               eq_refl Hr).
    erewrite step_ImageReady by reflexivity. reflexivity. }
  subst p d2. rewrite E2. subst s1. vm_compute.
  repeat split; try reflexivity. eauto.
Qed.

(** * The image a payload is built from *)

Lemma QImage_eqb_refl (i : QImage) : QImage_eqb i i = true.
Proof.
  unfold QImage_eqb. destruct (bits i) as [b|]; [|reflexivity].
  unfold Bitmap_eqb. now rewrite !Z.eqb_refl.
Qed.

(** After [setImage(image)] with a valid image and no loading state, the
    widget shows an image equal to it (Qt's [==]): the one just set, or the
    equal one it already held. *)
Lemma shows_image_set (img : QImage) (o : StyleOption) (w : ItemRenderWidget) :
  isNull img = false ->
  _scaled_image_cache w = None ->
  exists img',
    px_image
      (render (ItemRenderWidget.setGeometry (rect o)
         (ItemRenderWidget.set_selected (State_Selected o)
            (ItemRenderWidget.setLoadingState false
               (ItemRenderWidget.setImage (Some img) w)))))
    = OriginalImage img' /\ QImage_eqb img' img = true.
Proof.
  intros Hn Hs. unfold ItemRenderWidget.setImage.
  destruct (image_ne (_image w) (Some img)) eqn:Ene;
    unfold render, ItemRenderWidget._getDisplayImage; simpl.
  - rewrite Hn. exists img. split; [reflexivity | apply QImage_eqb_refl].
  - rewrite Hs. destruct (_image w) as [x|]; [|discriminate]. simpl in Ene.
    apply negb_false_iff in Ene. exists x. split; [|exact Ene].
    unfold isNull in *. unfold QImage_eqb in Ene.
    destruct (bits x); [reflexivity|]. destruct (bits img); discriminate.
Qed.

(** With an absent or null image and no loading state the widget shows the
    error image. *)
Lemma shows_error (image : option QImage) (o : StyleOption) (w : ItemRenderWidget) :
  is_valid image = false ->
  _scaled_image_cache w = None ->
  px_image
    (render (ItemRenderWidget.setGeometry (rect o)
       (ItemRenderWidget.set_selected (State_Selected o)
          (ItemRenderWidget.setLoadingState false
             (ItemRenderWidget.setImage image w)))))
  = ErrorImage.
Proof.
  intros Hv Hs. unfold ItemRenderWidget.setImage.
  destruct (image_ne (_image w) image) eqn:Ene;
    unfold render, ItemRenderWidget._getDisplayImage; simpl.
  - destruct image as [i|]; [|reflexivity]. simpl in Hv.
    apply negb_false_iff in Hv. now rewrite Hv.
  - rewrite Hs. destruct (_image w) as [x|], image as [i|];
      try discriminate; [|reflexivity].
    simpl in Ene, Hv. apply negb_false_iff in Ene, Hv.
    unfold isNull in *. unfold QImage_eqb in Ene.
    destruct (bits x); [|reflexivity]. destruct (bits i); discriminate.
Qed.

(** A request that misses the pixmap cache, with a valid image that is
    neither cached nor pending, hands one job to the loader and renders
    the loading placeholder. *)
Lemma paint_miss_dispatches
    (scaling_target : QImage -> QSize -> QSize)
    (o : StyleOption) (i : ModelIndex) (d : ModelGalleryItemDelegate)
    (img : QImage) :
  let K := _getImageCacheKey i d in
  let p := snd (paint scaling_target o i d) in
  dict.get (_getCacheKey i (State_Selected o) d) (_pixmap_cache d) = None ->
  DecorationRole i = Some img -> isNull img = false ->
  dict.get K (_image_cache d) = None ->
  dict.mem K (_pending_loads d) = false ->
  dispatched p = Some (mkJob K img (scaling_target img (_item_size d))) /\
  exists b, px_image (drawn p) = LoadingPlaceholder b.
Proof.
  intros K p Hmiss Ei Hn Hc Hp. subst p. unfold paint. rewrite Hmiss.
  unfold load_image. fold K. rewrite Hc, Ei, Hn, Hp. simpl.
  split; [reflexivity|].
  unfold render, ItemRenderWidget._getDisplayImage,
    ItemRenderWidget.setImage.
  destruct (image_ne _ _); simpl;
    destruct (_loading_placeholder (_widget d)); eauto.
Qed.

(** * Completions *)

(** C9. A completion that arrives while the processed-image cache holds its
    maximum number of entries is discarded: the image cache is unchanged
    (nothing inserted, nothing evicted), the key is removed from the
    pending loads all the same, and the next request for that key whose
    image is valid and which reaches the image-loading step (a pixmap-cache
    miss, the key not in the image cache) dispatches a fresh job for it. *)
Theorem full_image_cache_discards_completion
    (i0 : ModelIndex) (d0 d : ModelGalleryItemDelegate) (img : QImage) :
  let K := _getImageCacheKey i0 d0 in
  _max_image_cache_size d <= dict.len (_image_cache d) ->
  exists d',
    _onImageReady K img d = Normal d' /\
    _image_cache d' = _image_cache d /\
    dict.mem K (_pending_loads d') = false /\
    forall (scaling_target : QImage -> QSize -> QSize)
           (o : StyleOption) (i : ModelIndex),
      _getImageCacheKey i d' = K ->
      is_valid (DecorationRole i) = true ->
      dict.get K (_image_cache d') = None ->
      dict.get (_getCacheKey i (State_Selected o) d') (_pixmap_cache d') = None ->
      exists j, dispatched (snd (paint scaling_target o i d')) = Some j /\
                job_key j = K.
Proof.
  intros K Hfull. subst K.
  destruct (image_key_prefix i0 d0) as [rest ->].
  destruct (onImageReady_normal rest img d)
    as (d' & E & _ & _ & _ & Hic & _ & Hp).
  exists d'. split; [exact E|]. split; [|split].
  - rewrite Hic. destruct (Z.ltb_spec (dict.len (_image_cache d))
                             (_max_image_cache_size d)); [lia | reflexivity].
  - now apply (onImageReady_not_pending rest img d).
  - intros scaling_target o i HK Hv Hc Hmiss.
    destruct (DecorationRole i) as [im|] eqn:Ei; [|discriminate].
    simpl in Hv. apply negb_true_iff in Hv.
    destruct (paint_miss_dispatches scaling_target o i d' im Hmiss Ei Hv)
      as [Hd _].
    + now rewrite HK.
    + rewrite HK. now apply (onImageReady_not_pending rest img d).
    + eexists. split; [exact Hd | exact HK].
Qed.

Lemma full_image_cache_discards_completion_witness :
  let d := _item_delegate (view Ex.system100) in
  let K := _getImageCacheKey (Ex.item 100) d in
  dict.len (_image_cache d) = 100 /\
  dict.mem K (_pending_loads d) = true /\
  exists d',
    _onImageReady K Ex.imageA d = Normal d' /\
    _image_cache d' = _image_cache d /\
    dict.mem K (_pending_loads d') = false.
Proof.
  intros d K. split; [reflexivity|]. split; [reflexivity|].
  destruct (full_image_cache_discards_completion (Ex.item 100) d d Ex.imageA)
    as (d' & E & Hic & Hp & _).
  - vm_compute. discriminate.
  - exists d'. auto.
Defined.

(** * Runs of the pipeline *)

(** C4. After any sequence of payload requests, worker completions, grid
    updates, resizes and cache clears from the initial state, the pixmap
    cache holds at most its configured 200 entries and the processed-image
    cache at most its configured 100. *)
Theorem caches_never_exceed_bounds
    (scaling_target : QImage -> QSize -> QSize)
    (scaled : QImage -> QSize -> TransformationMode -> option QImage)
    (evs : list Event) :
  let d := _item_delegate (view (run scaling_target scaled system_init evs)) in
  _max_cache_size d = 200 /\ _max_image_cache_size d = 100 /\
  dict.len (_pixmap_cache d) <= _max_cache_size d /\
  dict.len (_image_cache d) <= _max_image_cache_size d.
Proof.
  intros d. subst d.
  assert (H : bounded (_item_delegate
                (view (run scaling_target scaled system_init evs)))).
  { apply (run_ind scaling_target scaled
             (fun s => bounded (_item_delegate (view s)))).
    - unfold bounded. simpl. unfold dict.len. simpl. lia.
    - intros s ev. apply step_bounded. }
  destruct H as (H1 & H2 & H3 & H4). rewrite H1, H2. auto.
Qed.

(** Requests for a key that is pending dispatch nothing. *)
Lemma paints_pending_no_job
    (scaling_target : QImage -> QSize -> QSize)
    (K : string) (reqs : list (StyleOption * ModelIndex))
    (d : ModelGalleryItemDelegate) :
  dict.mem K (_pending_loads d) = true ->
  (forall r, In r reqs -> _getImageCacheKey (snd r) d = K) ->
  jobs_of (snd (paints scaling_target reqs d)) = [] /\
  dict.mem K (_pending_loads (fst (paints scaling_target reqs d))) = true.
Proof.
  revert d. induction reqs as [|[o i] reqs IH]; intros d Hp HK; simpl.
  - now split.
  - assert (Hi : _getImageCacheKey i d = K) by (apply (HK (o, i)); now left).
    destruct (paint_pending_cases scaling_target o i d)
      as [[Hd Hp']|(_ & _ & _ & _ & Hm & _)];
      [|rewrite Hi in Hm; congruence].
    pose proof (paint_item_size scaling_target o i d) as Hs.
    destruct (paint scaling_target o i d) as [d1 p] eqn:Ep. simpl in Hd, Hp', Hs.
    specialize (IH d1).
    destruct (paints scaling_target reqs d1) as [d2 ps] eqn:Eps. simpl in IH |- *.
    rewrite Hd. simpl. apply IH.
    + now rewrite Hp'.
    + intros r Hr. rewrite <- (HK r) by now right.
      now apply image_key_size.
Qed.

(** C2, the claim as stated fails: item "A" is painted, the caches are
    cleared (a model reset, or the view being hidden), and the item is
    painted again before any completion has arrived: two scale jobs for
    the one key are in flight. *)
Lemma clearCaches_allows_second_job :
  let s := run Ex.target Ex.scale system_init
             [Paint Ex.cell Ex.itemA; ClearCaches; Paint Ex.cell Ex.itemA] in
  ready_queue s = [] /\
  map job_key (worker_queue s) = ["img_7_450_650"; "img_7_450_650"] /\
  count_key "img_7_450_650" (in_flight s) = 2%nat.
Proof. vm_compute. repeat split; reflexivity. Qed.

(** C2, amended. Along every run from the initial state in which the
    pending loads are not cleared (no [clearCaches], no resize past the
    threshold), at most one scale job is in flight for any key K at any
    time. And in the state such a run reaches, if no job is in flight for K
    and K is not in the image cache, then N requests one after another that
    all derive K, the first with a valid image and missing the pixmap
    cache, dispatch exactly one scale job, for K: the later requests find
    the key pending and dispatch nothing. *)
Theorem one_job_in_flight_per_key
    (scaling_target : QImage -> QSize -> QSize)
    (scaled : QImage -> QSize -> TransformationMode -> option QImage)
    (evs : list Event) (K : string) :
  forallb (fun ev => negb (clears_tracker ev)) evs = true ->
  let s := run scaling_target scaled system_init evs in
  let d := _item_delegate (view s) in
  (count_key K (in_flight s) <= 1)%nat /\
  forall (o : StyleOption) (i : ModelIndex)
         (reqs : list (StyleOption * ModelIndex)),
    count_key K (in_flight s) = 0%nat ->
    dict.get K (_image_cache d) = None ->
    (forall r, In r ((o, i) :: reqs) -> _getImageCacheKey (snd r) d = K) ->
    is_valid (DecorationRole i) = true ->
    dict.get (_getCacheKey i (State_Selected o) d) (_pixmap_cache d) = None ->
    exists j, jobs_of (snd (paints scaling_target ((o, i) :: reqs) d)) = [j] /\
              job_key j = K.
Proof.
  intros Hevs s d.
  assert (Hinv : keys_wellformed s /\ deduplicated s /\ no_stale_entry s).
  { subst d s. induction evs as [|ev evs IH] using rev_ind.
    - split; [apply init_keys_wellformed|]. split.
      + intros k. vm_compute. split; [lia|intros H; inversion H].
      + intros k Hk. discriminate Hk.
    - rewrite forallb_app in Hevs. apply andb_true_iff in Hevs as [H1 H2].
      simpl in H2. rewrite andb_true_r in H2. apply negb_true_iff in H2.
      destruct (IH H1) as (Hwf & Hdd & Hns). rewrite run_snoc.
      split; [now apply step_keys_wellformed|]. split.
      + now apply step_deduplicated.
      + now apply step_no_stale_entry. }
  destruct Hinv as (Hwf & Hdd & Hns). split; [apply Hdd|].
  intros o i reqs H0 Hc HK Hv Hmiss.
  assert (Hi : _getImageCacheKey i d = K) by (apply (HK (o, i)); now left).
  assert (Hp : dict.mem K (_pending_loads d) = false).
  { destruct (dict.mem K (_pending_loads d)) eqn:Em; [|reflexivity].
    apply Hns in Em. lia. }
  destruct (DecorationRole i) as [img|] eqn:Ei; [|discriminate].
  simpl in Hv. apply negb_true_iff in Hv.
  destruct (paint_miss_dispatches scaling_target o i d img Hmiss Ei Hv)
    as [Hd _]; [now rewrite Hi | now rewrite Hi |].
  destruct (paint_pending_cases scaling_target o i d)
    as [[Hd' _]|(_ & _ & _ & _ & _ & _ & _ & Hp')]; [congruence|].
  pose proof (paint_item_size scaling_target o i d) as Hs.
  simpl. destruct (paint scaling_target o i d) as [d1 p] eqn:Ep.
  simpl in Hd, Hp', Hs.
  destruct (paints_pending_no_job scaling_target K reqs d1) as [Hj _].
  - rewrite Hp', Hi. apply dict_facts.mem_set_same.
  - intros r Hr. rewrite <- (HK r) by now right. now apply image_key_size.
  - destruct (paints scaling_target reqs d1) as [d2 ps]. simpl in Hj |- *.
    rewrite Hd, Hj. eexists. split; [reflexivity | exact Hi].
Qed.

Lemma one_job_in_flight_per_key_witness :
  let requests :=
    [(Ex.cell, Ex.itemA); (Ex.cell_selected, Ex.itemA); (Ex.cell, Ex.itemA)] in
  (count_key "img_7_450_650"
     (in_flight (run Ex.target Ex.scale system_init
                   [Paint Ex.cell (Ex.item 0); WorkerRuns])) <= 1)%nat /\
  exists j,
    jobs_of (snd (paints Ex.target requests
                    (_item_delegate (view
                       (run Ex.target Ex.scale system_init
                          [Paint Ex.cell (Ex.item 0); WorkerRuns]))))) = [j] /\
    job_key j = "img_7_450_650".
Proof.
  intros requests.
  destruct (one_job_in_flight_per_key Ex.target Ex.scale
              [Paint Ex.cell (Ex.item 0); WorkerRuns] "img_7_450_650" eq_refl)
    as [H1 H2].
  split; [exact H1|].
  apply (H2 Ex.cell Ex.itemA
            [(Ex.cell_selected, Ex.itemA); (Ex.cell, Ex.itemA)]);
    try reflexivity.
  intros r [<-|[<-|[<-|[]]]]; reflexivity.
Defined.

(** * Draining the queues *)

Section Drain.
Variable scaling_target : QImage -> QSize -> QSize.
Variable scaled : QImage -> QSize -> TransformationMode -> option QImage.

Local Abbreviation sstep := (step scaling_target scaled).
Local Abbreviation srun := (run scaling_target scaled).





End Drain.



(** * Resizing *)

Lemma calculateGridSize_list_view grid_formula viewport_width st sz st1 :
  GalleryList.calculateGridSize grid_formula viewport_width st = Some (sz, st1) ->
  GalleryList.list_view st1 = GalleryList.list_view st.
Proof.
  unfold GalleryList.calculateGridSize.
  destruct (_ && _); [now intros [= _ <-]|].
  destruct (GalleryList._items_per_row st =? 0); [discriminate|].
  now intros [= _ <-].
Qed.

(** The whole method [GalleryList.resizeEvent'] acts on the grid size and
    the delegate as [resizeEvent] does with the size [calculateGridSize]
    returned, and leaves them alone when that calculation raises. *)
Lemma resizeEvent_list_view grid_formula e viewport_width st :
  GalleryList.list_view
    (GalleryList.state_of
       (fst (GalleryList.resizeEvent' grid_formula e viewport_width st))) =
  match GalleryList.calculateGridSize grid_formula viewport_width st with
  | Some (sz, _) => resizeEvent e sz (GalleryList.list_view st)
  | None => GalleryList.list_view st
  end.
Proof.
  unfold GalleryList.resizeEvent', resizeEvent, GalleryList._updateGridSize',
    _updateGridSize.
  destruct (Z.abs _ >? 50).
  - destruct (GalleryList.calculateGridSize grid_formula viewport_width st)
      as [[sz st1]|] eqn:Ec; [|reflexivity].
    simpl. now rewrite (calculateGridSize_list_view _ _ _ _ _ Ec).
  - now destruct (GalleryList.calculateGridSize grid_formula viewport_width st)
      as [[sz st1]|].
Qed.

(** C3, the claim as stated fails, in three ways. Item "A" has been
    painted, so its pixmap is cached and its key is pending. A resize event
    whose width change (10 pixels) stays below the threshold clears
    nothing, and the next request for the item is answered from the pixmap
    cache. With zero items per row (as [setItemsPerRow(0)] leaves the
    view), a resize event of 100 pixels ends with [ZeroDivisionError]
    before anything is cleared. And [setItemSize], the slot that receives
    the new size, empties the two caches but leaves the pending loads as
    they are. *)
Lemma small_resize_clears_nothing :
  let v := view (run Ex.target Ex.scale system_init [Paint Ex.cell Ex.itemA]) in
  let st := GalleryList.mkState v 5 (mkQSize (-1) (-1)) 0 (0, 0) None in
  let small := mkResize (mkQSize 1010 700) (mkQSize 1000 700) in
  let large := mkResize (mkQSize 1100 700) (mkQSize 1000 700) in
  let st0 :=
    GalleryList.state_of (GalleryList.setItemsPerRow Ex.grid 0 900 st) in
  dict.keys (_pixmap_cache (_item_delegate v)) = ["A_B_7_False_450_650"] /\
  dict.keys (_pending_loads (_item_delegate v)) = ["img_7_450_650"] /\
  (* a width change of 10 pixels *)
  GalleryList.resizeEvent' Ex.grid small 900 st = (GalleryList.Done st, None) /\
  cache_hit (snd (paint Ex.target Ex.cell Ex.itemA (_item_delegate v))) = true /\
  (* zero items per row *)
  GalleryList._items_per_row st0 = 0 /\ GalleryList.list_view st0 = v /\
  GalleryList.resizeEvent' Ex.grid large 900 st0
    = (GalleryList.ZeroDivisionError st0, None) /\
  (* [setItemSize] *)
  dict.keys (_pending_loads (setItemSize (mkQSize 202 303) (_item_delegate v)))
    = ["img_7_450_650"].
Proof. vm_compute. repeat split; reflexivity. Qed.

(** C3, amended. A resize event whose width change exceeds 50 pixels, and
    whose grid calculation returns, empties the pixmap cache, the
    processed-image cache and the pending loads, whatever the state; any
    payload request after it misses the pixmap cache, is rendered anew,
    and, its image being valid, dispatches a scale job for the size now in
    force and shows the loading placeholder, never a cached image. A width
    change of 50 pixels or less leaves the view and the delegate as they
    are. So does a resize whose grid calculation raises
    [ZeroDivisionError], which it does only with zero items per row. The
    slot [setItemSize] on its own empties the two caches and keeps the
    pending loads. *)
Theorem significant_resize_clears_all
    (grid_formula : Z -> Z -> QSize)
    (e : QResizeEvent) (viewport_width : Z) (st : GalleryList.State) :
  let change := Z.abs (width (e_size e) - width (e_oldSize e)) in
  let outcome :=
    fst (GalleryList.resizeEvent' grid_formula e viewport_width st) in
  (* 50 pixels or less *)
  (change <= 50 -> outcome = GalleryList.Done st) /\
  (* more, and the grid calculation raises *)
  (change > 50 ->
   GalleryList.calculateGridSize grid_formula viewport_width st = None ->
   outcome = GalleryList.ZeroDivisionError st) /\
  (GalleryList.calculateGridSize grid_formula viewport_width st = None ->
   GalleryList._items_per_row st = 0) /\
  (* more, and the grid calculation returns *)
  (change > 50 ->
   GalleryList.calculateGridSize grid_formula viewport_width st <> None ->
   exists st',
     outcome = GalleryList.Done st' /\
     let d' := _item_delegate (GalleryList.list_view st') in
     _pixmap_cache d' = [] /\ _image_cache d' = [] /\ _pending_loads d' = [] /\
     forall (scaling_target : QImage -> QSize -> QSize)
            (o : StyleOption) (i : ModelIndex),
       let p := snd (paint scaling_target o i d') in
       cache_hit p = false /\
       forall img, DecorationRole i = Some img -> isNull img = false ->
         dispatched p =
           Some (mkJob (_getImageCacheKey i d') img
                       (scaling_target img (_item_size d'))) /\
         exists b, px_image (drawn p) = LoadingPlaceholder b) /\
  (* [setItemSize] *)
  (forall sz d,
      _item_size (setItemSize sz d) = sz /\
      _pixmap_cache (setItemSize sz d) = [] /\
      _image_cache (setItemSize sz d) = [] /\
      _pending_loads (setItemSize sz d) = _pending_loads d).
Proof.
  intros change outcome. subst outcome. unfold GalleryList.resizeEvent'.
  fold change. split; [|split; [|split; [|split]]].
  - intros Hle. destruct (Z.gtb_spec change 50); [lia | reflexivity].
  - intros Hgt Hc. destruct (Z.gtb_spec change 50); [|lia].
    unfold GalleryList._updateGridSize'. now rewrite Hc.
  - unfold GalleryList.calculateGridSize. destruct (_ && _); [discriminate|].
    destruct (Z.eqb_spec (GalleryList._items_per_row st) 0) as [E|_];
      [intros _; exact E | discriminate].
  - intros Hgt Hc. destruct (Z.gtb_spec change 50); [|lia].
    unfold GalleryList._updateGridSize'.
    destruct (GalleryList.calculateGridSize grid_formula viewport_width st)
      as [[sz st1]|]; [|contradiction]. simpl.
    eexists. split; [reflexivity|]. simpl.
    set (d' := clearCaches (_item_delegate (setGridSize sz (GalleryList.list_view st1)))).
    split; [reflexivity|]. split; [reflexivity|]. split; [reflexivity|].
    intros scaling_target o i.
    assert (Hmiss : dict.get (_getCacheKey i (State_Selected o) d')
                             (_pixmap_cache d') = None) by reflexivity.
    split.
    + unfold paint. rewrite Hmiss.
      now destruct (load_image scaling_target i d') as [[w pend] j].
    + intros img Ei Hn.
      now apply (paint_miss_dispatches scaling_target o i d' img Hmiss Ei Hn).
  - intros sz d. now repeat split.
Qed.

Lemma significant_resize_clears_all_witness :
  let v := view (run Ex.target Ex.scale system_init
                   [Paint Ex.cell Ex.itemA; WorkerRuns; ImageReady;
                    Paint Ex.cell (Ex.item 0)]) in
  let st := GalleryList.mkState v 5 (mkQSize (-1) (-1)) 0 (0, 0) None in
  let e := mkResize (mkQSize 1100 700) (mkQSize 1000 700) in
  dict.keys (_pixmap_cache (_item_delegate v))
    = ["A_B_7_False_450_650"; "item0_T_1_False_450_650"] /\
  dict.keys (_image_cache (_item_delegate v)) = ["img_7_450_650"] /\
  dict.keys (_pending_loads (_item_delegate v)) = ["img_1_450_650"] /\
  exists st',
    fst (GalleryList.resizeEvent' Ex.grid e 900 st) = GalleryList.Done st' /\
    let d' := _item_delegate (GalleryList.list_view st') in
    _pixmap_cache d' = [] /\ _image_cache d' = [] /\ _pending_loads d' = [] /\
    cache_hit (snd (paint Ex.target Ex.cell Ex.itemA d')) = false.
Proof.
  intros v st e. split; [reflexivity|]. split; [reflexivity|].
  split; [reflexivity|].
  destruct (significant_resize_clears_all Ex.grid e 900 st)
    as (_ & _ & _ & H & _).
  destruct H as (st' & E & H1 & H2 & H3 & H4).
  - simpl. lia.
  - vm_compute. discriminate.
  - exists st'. split; [exact E|]. split; [exact H1|]. split; [exact H2|].
    split; [exact H3|]. apply (H4 Ex.target Ex.cell Ex.itemA).
Defined.

(** * Eviction *)

Lemma get_del_all_none {V} (k : string) (ks : list string) (d : Dict V) :
  dict.get k d = None -> dict.get k (dict.del_all ks d) = None.
Proof.
  intros H. destruct (In_dec string_dec k ks) as [Hin|Hnin].
  - now apply dict_facts.get_del_all_gone.
  - now rewrite dict_facts.get_del_all_kept.
Qed.

(** C7, the claim as stated fails. Items 0 to 199 are requested, filling
    the pixmap cache; item 0 is requested again and answered from the
    cache; item 200 is requested. Item 0 was the most recently used entry
    and item 20 had not been touched since its insertion, yet the code
    evicts item 0 and keeps item 20, where the recency-ordered table of the
    specification keeps item 0 and evicts item 20. *)
Lemma eviction_is_not_by_recency :
  let key0 := _getCacheKey (Ex.item 0) false __init__ in
  let key20 := _getCacheKey (Ex.item 20) false __init__ in
  dict.len (_pixmap_cache Ex.delegate200) = 200 /\
  cache_hit (snd (paint Ex.target Ex.cell (Ex.item 0) Ex.delegate200)) = true /\
  dict.mem key0 Trace.code_cache = false /\
  dict.mem key20 Trace.code_cache = true /\
  dict.mem key0 Trace.spec_table = true /\
  dict.mem key20 Trace.spec_table = false /\
  length Trace.code_cache = length Trace.spec_table.
Proof. vm_compute. repeat split; reflexivity. Qed.

(** C7, amended. An insertion into the pixmap cache when it already holds
    [_max_cache_size] entries evicts, in one pass, the 20 entries that were
    inserted first (of 200 entries 180 remain before the new one is added);
    the remaining entries keep their order and the new entry goes last. The
    order is that of insertion: a request answered from the cache leaves
    the cache exactly as it was, so reads do not refresh an entry. *)
Theorem eviction_drops_twenty_oldest_insertions
    (scaling_target : QImage -> QSize -> QSize)
    (o : StyleOption) (i : ModelIndex) (d : ModelGalleryItemDelegate) :
  NoDup (dict.keys (_pixmap_cache d)) ->
  _max_cache_size d <= dict.len (_pixmap_cache d) ->
  let key := _getCacheKey i (State_Selected o) d in
  (dict.get key (_pixmap_cache d) = None ->
   _pixmap_cache (fst (paint scaling_target o i d)) =
     (skipn 20 (_pixmap_cache d)
      ++ [(key, drawn (snd (paint scaling_target o i d)))])%list) /\
  (forall pixmap, dict.get key (_pixmap_cache d) = Some pixmap ->
   _pixmap_cache (fst (paint scaling_target o i d)) = _pixmap_cache d).
Proof.
  intros Hnd Hfull key. split.
  - intros Hmiss. unfold paint. fold key. rewrite Hmiss.
    destruct (load_image scaling_target i d) as [[w pend] j].
    cbn [fst snd _pixmap_cache drawn].
    destruct (Z.geb_spec (dict.len (_pixmap_cache d)) (_max_cache_size d));
      [|lia].
    rewrite dict_facts.set_fresh.
    + now rewrite dict_facts.del_firstn_skipn.
    + apply dict_facts.mem_false_get. now apply get_del_all_none.
  - intros pixmap Hhit. unfold paint. fold key. now rewrite Hhit.
Qed.

Lemma eviction_drops_twenty_oldest_insertions_witness :
  let d := Ex.delegate200 in
  let key := _getCacheKey (Ex.item 200) false d in
  _pixmap_cache (fst (paint Ex.target Ex.cell (Ex.item 200) d)) =
    (skipn 20 (_pixmap_cache d)
     ++ [(key, drawn (snd (paint Ex.target Ex.cell (Ex.item 200) d)))])%list.
Proof.
  intros d key.
  apply (eviction_drops_twenty_oldest_insertions Ex.target Ex.cell
           (Ex.item 200) d).
  - apply (bool_decide_unpack (NoDup (dict.keys (_pixmap_cache d)))).
    vm_compute. exact I.
  - vm_compute. discriminate.
  - reflexivity.
Defined.

(** * Further properties of the widget and the delegate *)

Lemma widget_invariant_setImage image w :
  widget_invariant w -> widget_invariant (ItemRenderWidget.setImage image w).
Proof.
  intros (Hs & Hp & Hl). unfold ItemRenderWidget.setImage.
  destruct (image_ne (_image w) image); [|now repeat split].
  unfold widget_invariant. simpl. repeat split; [exact Hp | discriminate].
Qed.

Lemma widget_invariant_setLoadingState loading w :
  widget_invariant w ->
  widget_invariant (ItemRenderWidget.setLoadingState loading w).
Proof.
  intros (Hs & Hp & Hl). unfold widget_invariant. simpl.
  split; [exact Hs|].
  destruct Hp as [-> | ->]; destruct loading; split; auto; discriminate.
Qed.

Lemma widget_invariant_resize sz w :
  widget_invariant w -> widget_invariant (ItemRenderWidget.resize sz w).
Proof.
  intros (Hs & Hp & Hl). unfold ItemRenderWidget.resize.
  destruct (negb (QSize_eqb (_cache_size w) sz)); now repeat split.
Qed.

Section Delegate_more.
Variable scaling_target : QImage -> QSize -> QSize.
Variable scaled : QImage -> QSize -> TransformationMode -> option QImage.

Local Abbreviation sstep := (step scaling_target scaled).
Local Abbreviation srun := (run scaling_target scaled).

(** The widget [load_image] leaves behind carries the item's labels and
    keeps the widget invariant. *)
Lemma load_image_widget i d :
  let w := fst (fst (load_image scaling_target i d)) in
  model_name_label w = NameRole i /\ model_type_label w = TypeRole i /\
  (widget_invariant (_widget d) -> widget_invariant w).
Proof.
  unfold load_image.
  set (w0 := ItemRenderWidget.setModelType (TypeRole i)
               (ItemRenderWidget.setModelName (NameRole i) (_widget d))).
  assert (H0 : widget_invariant (_widget d) -> widget_invariant w0)
    by (intros (Hs & Hp & Hl); now repeat split).
  assert (Hlab : forall image loading,
    let w := ItemRenderWidget.setLoadingState loading
               (ItemRenderWidget.setImage image w0) in
    model_name_label w = NameRole i /\ model_type_label w = TypeRole i /\
    (widget_invariant (_widget d) -> widget_invariant w)).
  { intros image loading. split; [|split].
    - unfold ItemRenderWidget.setImage. now destruct (image_ne _ _).
    - unfold ItemRenderWidget.setImage. now destruct (image_ne _ _).
    - intros H. now apply widget_invariant_setLoadingState,
        widget_invariant_setImage, H0. }
  destruct (dict.get _ (_image_cache d)); [apply Hlab|].
  destruct (DecorationRole i) as [img|]; [|apply Hlab].
  destruct (negb (isNull img) && negb (dict.mem _ (_pending_loads d)));
    apply Hlab.
Qed.

(** The pixmap a missing request draws, and the cache it leaves. *)
Lemma paint_miss_shape o i d :
  dict.get (_getCacheKey i (State_Selected o) d) (_pixmap_cache d) = None ->
  let p := snd (paint scaling_target o i d) in
  let d' := fst (paint scaling_target o i d) in
  cache_hit p = false /\
  px_name (drawn p) = NameRole i /\ px_type (drawn p) = TypeRole i /\
  px_selected (drawn p) = State_Selected o /\
  _pixmap_cache d' =
    dict.set (_getCacheKey i (State_Selected o) d) (drawn p)
      (if dict.len (_pixmap_cache d) >=? _max_cache_size d
       then dict.del_all (firstn 20 (dict.keys (_pixmap_cache d)))
                         (_pixmap_cache d)
       else _pixmap_cache d) /\
  (widget_invariant (_widget d) -> widget_invariant (_widget d')).
Proof.
  intros Hmiss. unfold paint. rewrite Hmiss.
  destruct (load_image_widget i d) as (Hn & Ht & Hw).
  destruct (load_image scaling_target i d) as [[w pend] j]. simpl in *.
  do 5 (split; [assumption || reflexivity|]).
  intros Hinv. destruct (Hw Hinv) as (Hs & Hp & Hl). now repeat split.
Qed.

(** The completion handler, whatever its key and however it ends, leaves
    the widget and the item size alone and adds nothing to the pixmap
    cache. *)
Lemma onImageReady_frame k img d :
  let d' := delegate_of (_onImageReady k img d) in
  _widget d' = _widget d /\ _item_size d' = _item_size d /\
  forall e, In e (_pixmap_cache d') -> In e (_pixmap_cache d).
Proof.
  unfold _onImageReady.
  destruct (_pixmap_cache d) as [|e0 pc] eqn:Epc.
  - simpl. now repeat split.
  - destruct (nth_error (Py.split_once "_" k) 1) as [fragment|]; simpl.
    + repeat split. intros e He. rewrite dict_facts.del_all_filter in He.
      now apply List.filter_In in He as [He _].
    + now repeat split.
Qed.

Lemma step_widget_invariant s ev :
  widget_invariant (_widget (_item_delegate (view s))) ->
  widget_invariant (_widget (_item_delegate (view (sstep s ev)))).
Proof.
  intros H. destruct ev as [o i|calc|e calc| | |].
  - rewrite step_Paint. simpl.
    destruct (dict.get (_getCacheKey i (State_Selected o) (_item_delegate (view s)))
                (_pixmap_cache (_item_delegate (view s)))) as [pm|] eqn:Eg.
    + unfold paint. now rewrite Eg.
    + now apply (paint_miss_shape o i _ Eg).
  - simpl. unfold _updateGridSize, setGridSize.
    destruct (negb (QSize_eqb _ calc)); [|exact H].
    simpl. now apply widget_invariant_resize.
  - simpl. unfold resizeEvent. destruct (Z.abs _ >? 50); [|exact H].
    simpl. unfold _updateGridSize, setGridSize.
    destruct (negb (QSize_eqb _ calc)); [|exact H].
    simpl. now apply widget_invariant_resize.
  - exact H.
  - simpl. now destruct (worker_queue s).
  - simpl. destruct (ready_queue s) as [|[k img] rest]; [exact H|]. simpl.
    destruct (onImageReady_frame k img (_item_delegate (view s))) as (-> & _).
    exact H.
Qed.

Lemma reachable_widget_invariant evs :
  widget_invariant (_widget (_item_delegate (view (srun system_init evs)))).
Proof.
  apply (run_ind scaling_target scaled
           (fun s => widget_invariant (_widget (_item_delegate (view s))))).
  - unfold widget_invariant. simpl. repeat split; auto. discriminate.
  - apply step_widget_invariant.
Qed.
End Delegate_more.

(** X1. In every state the pipeline reaches, the scratch widget holds no
    scaled image of its own, its loading placeholder is absent or the 200
    by 200 fill, and it is in the loading state only with the placeholder
    present; so the image it displays is never its scaled-image cache. *)
Theorem widget_never_shows_its_scaled_cache
    (scaling_target : QImage -> QSize -> QSize)
    (scaled : QImage -> QSize -> TransformationMode -> option QImage)
    (evs : list Event) :
  let w := _widget (_item_delegate
             (view (run scaling_target scaled system_init evs))) in
  _scaled_image_cache w = None /\
  (_loading_placeholder w = None \/ _loading_placeholder w = Some loading_fill) /\
  (_is_loading w = true -> _loading_placeholder w = Some loading_fill) /\
  (forall img, ItemRenderWidget._getDisplayImage w <> ScaledImageCache img) /\
  (forall b, ItemRenderWidget._getDisplayImage w = LoadingPlaceholder b ->
             b = loading_fill).
Proof.
  intros w.
  destruct (reachable_widget_invariant scaling_target scaled evs)
    as (Hs & Hp & Hl).
  fold w in Hs, Hp, Hl. repeat split; try assumption.
  - intros img. unfold ItemRenderWidget._getDisplayImage. rewrite Hs.
    destruct (if _is_loading w then _loading_placeholder w else None);
      [discriminate|].
    destruct (_image w) as [x|]; [destruct (isNull x)|]; discriminate.
  - intros b. unfold ItemRenderWidget._getDisplayImage. rewrite Hs.
    destruct (_is_loading w) eqn:El.
    + rewrite (Hl eq_refl). now intros [= <-].
    + destruct (_image w) as [x|]; [destruct (isNull x)|]; discriminate.
Qed.

(** X2. A scaled image handed to the widget with [setScaledImage] is what
    the widget displays, whatever image it holds and whether or not it was
    loading; the loading state, set afterwards, takes precedence over it
    without dropping it. [setImage] drops it exactly when the new image
    differs from the one held, and [resize] exactly when the size differs
    from the one the cache was made for. *)
Theorem scaled_image_precedence (img : QImage) (w : ItemRenderWidget) :
  ItemRenderWidget._getDisplayImage (setScaledImage img w)
    = ScaledImageCache img /\
  (exists b,
     ItemRenderWidget._getDisplayImage
       (ItemRenderWidget.setLoadingState true (setScaledImage img w))
     = LoadingPlaceholder b) /\
  ItemRenderWidget._getDisplayImage
    (ItemRenderWidget.setLoadingState false
       (ItemRenderWidget.setLoadingState true (setScaledImage img w)))
    = ScaledImageCache img /\
  (forall image,
     _scaled_image_cache
       (ItemRenderWidget.setImage image (setScaledImage img w))
     = if image_ne (_image w) image then None else Some img) /\
  (forall sz,
     _scaled_image_cache (ItemRenderWidget.resize sz (setScaledImage img w))
     = if QSize_eqb (_cache_size w) sz then Some img else None).
Proof.
  split; [|split; [|split; [|split]]].
  - unfold ItemRenderWidget._getDisplayImage. simpl.
    now destruct (_loading_placeholder w).
  - unfold ItemRenderWidget._getDisplayImage. simpl.
    destruct (_loading_placeholder w); eauto.
  - unfold ItemRenderWidget._getDisplayImage. simpl.
    now destruct (_loading_placeholder w).
  - intros image. unfold ItemRenderWidget.setImage. simpl.
    now destruct (image_ne (_image w) image).
  - intros sz. unfold ItemRenderWidget.resize. simpl.
    now destruct (QSize_eqb (_cache_size w) sz).
Qed.

(** * The image a request is rendered from *)

(** C6, the claim as stated fails: the first request for item "A" (valid
    image, nothing cached, nothing pending) dispatches the scale job and
    returns a payload built from the loading placeholder, not from the raw
    image; and the next request for the same image, made while that job is
    pending, returns a payload built from the raw image, not from the
    loading placeholder. *)
Lemma first_request_shows_loading_placeholder :
  let K := _getImageCacheKey Ex.itemA __init__ in
  let '(d1, p1) := paint Ex.target Ex.cell Ex.itemA __init__ in
  let '(d2, p2) := paint Ex.target Ex.cell_selected Ex.itemA d1 in
  is_valid (DecorationRole Ex.itemA) = true /\
  dict.mem K (_image_cache __init__) = false /\
  dict.mem K (_pending_loads __init__) = false /\
  dispatched p1 = Some (mkJob K Ex.imageA (mkQSize 487 650)) /\
  px_image (drawn p1) = LoadingPlaceholder loading_fill /\
  px_image (drawn p1) <> OriginalImage Ex.imageA /\
  dict.mem K (_pending_loads d1) = true /\
  cache_hit p2 = false /\
  px_image (drawn p2) = OriginalImage Ex.imageA /\
  px_image (drawn p2) <> LoadingPlaceholder loading_fill.
Proof. vm_compute. repeat split; try reflexivity; discriminate. Qed.

(** C6, amended. In every state the pipeline reaches, a payload request
    that misses the pixmap cache, whose raw image is present and valid,
    whose key misses the processed-image cache and is not pending,
    dispatches the scale job and returns a payload built from the loading
    placeholder. The order of selection is: the cached processed image if
    present, which is drawn as the error image when it is a null image;
    else the loading placeholder if the raw image is valid and no job is
    pending (this request dispatches it); else the error image if the raw
    image is absent or null; else, a job being pending already, the raw
    image. *)
Theorem display_image_selection
    (scaling_target : QImage -> QSize -> QSize)
    (scaled : QImage -> QSize -> TransformationMode -> option QImage)
    (evs : list Event) (o : StyleOption) (i : ModelIndex) :
  let d := _item_delegate (view (run scaling_target scaled system_init evs)) in
  let K := _getImageCacheKey i d in
  let p := snd (paint scaling_target o i d) in
  dict.get (_getCacheKey i (State_Selected o) d) (_pixmap_cache d) = None ->
  (* the processed image is cached: no job; it is drawn, and a null one is
     drawn as the error image *)
  (forall c,
      dict.get K (_image_cache d) = Some c ->
      dispatched p = None /\
      (isNull c = false ->
       exists c', px_image (drawn p) = OriginalImage c' /\
                  QImage_eqb c' c = true) /\
      (isNull c = true -> px_image (drawn p) = ErrorImage)) /\
  (* not cached, a valid raw image, not pending: the job and the
     placeholder *)
  (forall img,
      DecorationRole i = Some img -> isNull img = false ->
      dict.get K (_image_cache d) = None ->
      dict.mem K (_pending_loads d) = false ->
      dispatched p = Some (mkJob K img (scaling_target img (_item_size d))) /\
      px_image (drawn p) = LoadingPlaceholder loading_fill) /\
  (* not cached, the raw image absent or null: the error image *)
  (dict.get K (_image_cache d) = None ->
   is_valid (DecorationRole i) = false ->
   dispatched p = None /\ px_image (drawn p) = ErrorImage) /\
  (* not cached, a valid raw image, a job pending: the raw image *)
  (forall img,
      DecorationRole i = Some img -> isNull img = false ->
      dict.get K (_image_cache d) = None ->
      dict.mem K (_pending_loads d) = true ->
      dispatched p = None /\
      exists img', px_image (drawn p) = OriginalImage img' /\
                   QImage_eqb img' img = true).
Proof.
  intros d K p Hmiss.
  destruct (reachable_widget_invariant scaling_target scaled evs)
    as (Hs & Hp & _).
  fold d in Hs, Hp. subst p. unfold paint. rewrite Hmiss.
  unfold load_image. fold K. split; [|split; [|split]].
  - intros c Hc. rewrite Hc. simpl. split; [reflexivity|]. split; intros Hn.
    + apply shows_image_set; [exact Hn | exact Hs].
    + apply shows_error; [|exact Hs]. simpl. now rewrite Hn.
  - intros img Ei Hn Hc Hpend. rewrite Hc, Ei, Hn, Hpend. simpl.
    split; [reflexivity|].
    unfold render, ItemRenderWidget._getDisplayImage,
      ItemRenderWidget.setImage.
    destruct (image_ne _ _); simpl; destruct Hp as [-> | ->]; reflexivity.
  - intros Hc Hv. rewrite Hc.
    destruct (DecorationRole i) as [img|] eqn:Ei.
    + simpl in Hv. apply negb_false_iff in Hv. rewrite Hv. simpl.
      split; [reflexivity|]. apply shows_error; [|exact Hs].
      simpl. now rewrite Hv.
    + simpl. split; [reflexivity|]. now apply shows_error.
  - intros img Ei Hn Hc Hpend. rewrite Hc, Ei, Hn, Hpend. simpl.
    split; [reflexivity|]. apply shows_image_set; [exact Hn | exact Hs].
Qed.

Lemma display_image_selection_witness :
  (let p := snd (paint Ex.target Ex.cell Ex.itemA __init__) in
   dispatched p = Some (mkJob "img_7_450_650" Ex.imageA (mkQSize 487 650)) /\
   px_image (drawn p) = LoadingPlaceholder loading_fill) /\
  (let d := _item_delegate (view (run Ex.target Ex.scale system_init
                [Paint Ex.cell Ex.itemA; WorkerRuns; ImageReady])) in
   let p := snd (paint Ex.target Ex.cell_selected Ex.itemA d) in
   dict.get "img_7_450_650" (_image_cache d)
     = Some (mkQImage 1007 (Some (mkBitmap 487 650 1))) /\
   dispatched p = None /\
   exists c', px_image (drawn p) = OriginalImage c' /\
              QImage_eqb c' (mkQImage 1007 (Some (mkBitmap 487 650 1))) = true).
Proof.
  split.
  - destruct (display_image_selection Ex.target Ex.scale [] Ex.cell Ex.itemA
                eq_refl) as (_ & H & _).
    apply (H Ex.imageA); reflexivity.
  - intros d p. split; [reflexivity|].
    destruct (display_image_selection Ex.target Ex.scale
                [Paint Ex.cell Ex.itemA; WorkerRuns; ImageReady]
                Ex.cell_selected Ex.itemA eq_refl) as (H & _).
    destruct (H (mkQImage 1007 (Some (mkBitmap 487 650 1))) eq_refl)
      as (Hd & Hshow & _).
    split; [exact Hd|]. now apply Hshow.
Defined.

(** * Further properties of the runs *)

Lemma in_set {V} (k : string) (v : V) (d : Dict V) (e : string * V) :
  In e (dict.set k v d) -> e = (k, v) \/ In e d.
Proof.
  induction d as [|[k' v'] d IH]; simpl.
  - intros [<-|[]]. now left.
  - destruct (String.eqb k k'); simpl.
    + intros [<-|H]; [now left | right; now right].
    + intros [<-|H]; [right; now left|].
      destruct (IH H) as [->|H']; [now left | right; now right].
Qed.

Lemma get_in {V} (k : string) (v : V) (d : Dict V) :
  dict.get k d = Some v -> In (k, v) d.
Proof.
  induction d as [|[k' v'] d IH]; simpl; [discriminate|].
  destruct (String.eqb_spec k k') as [->|Hne].
  - intros [= ->]. now left.
  - intros H. right. now apply IH.
Qed.

Lemma cache_key_size i sel d d' :
  _item_size d = _item_size d' -> _getCacheKey i sel d = _getCacheKey i sel d'.
Proof. unfold _getCacheKey. now intros ->. Qed.

Lemma rendered_for_size d d' k pm :
  _item_size d = _item_size d' -> rendered_for d k pm -> rendered_for d' k pm.
Proof.
  intros Hs (o & i & -> & H). exists o, i. split; [|exact H].
  now apply cache_key_size.
Qed.

(** The image cache after the completion handler, however it ends. *)
Lemma onImageReady_image_cache k img d :
  _image_cache (delegate_of (_onImageReady k img d)) =
    (if dict.len (_image_cache d) <? _max_image_cache_size d
     then dict.set k img (_image_cache d) else _image_cache d).
Proof.
  unfold _onImageReady. destruct (_pixmap_cache d); [reflexivity|].
  now destruct (nth_error (Py.split_once "_" k) 1).
Qed.

Section Runs_more.
Variable scaling_target : QImage -> QSize -> QSize.
Variable scaled : QImage -> QSize -> TransformationMode -> option QImage.

Local Abbreviation sstep := (step scaling_target scaled).
Local Abbreviation srun := (run scaling_target scaled).
Local Abbreviation spaint := (paint scaling_target).

(** A job [paint] dispatches carries a valid image, and its key is made of
    the hash of that image's cache key and of the item size. *)
Lemma paint_job o i d j :
  dispatched (snd (spaint o i d)) = Some j ->
  isNull (job_image j) = false /\
  job_key j =
    "img_" +:+ Py.str_int (Py.hash_int (cacheKey (job_image j))) +:+ "_" +:+
    Py.str_int (width (_item_size d)) +:+ "_" +:+
    Py.str_int (height (_item_size d)).
Proof.
  destruct (paint_pending_cases scaling_target o i d)
    as [[Hd _]|(img & Ei & Hn & _ & _ & _ & Hd & _)]; rewrite Hd;
    [discriminate|].
  intros [= <-]. simpl. split; [exact Hn|].
  unfold _getImageCacheKey, image_key. now rewrite Ei, Hn.
Qed.

Lemma step_item_size_grid s ev :
  sizeHint (_item_delegate (view s)) = gridSize (view s) ->
  sizeHint (_item_delegate (view (sstep s ev))) = gridSize (view (sstep s ev)).
Proof.
  unfold sizeHint. intros H. destruct ev as [o i|calc|e calc| | |].
  - rewrite step_Paint. simpl. now rewrite paint_item_size.
  - simpl. unfold _updateGridSize, setGridSize.
    now destruct (negb (QSize_eqb _ calc)).
  - simpl. unfold resizeEvent. destruct (Z.abs _ >? 50); [|exact H].
    simpl. unfold _updateGridSize, setGridSize.
    now destruct (negb (QSize_eqb _ calc)).
  - exact H.
  - simpl. now destruct (worker_queue s).
  - simpl. destruct (ready_queue s) as [|[k img] rest]; [exact H|]. simpl.
    destruct (onImageReady_frame k img (_item_delegate (view s))) as (_ & -> & _).
    exact H.
Qed.

(** Every cached pixmap was rendered by a request, at the item size in
    force. *)
Lemma step_rendered s ev :
  (forall k pm, In (k, pm) (_pixmap_cache (_item_delegate (view s))) ->
                rendered_for (_item_delegate (view s)) k pm) ->
  forall k pm,
    In (k, pm) (_pixmap_cache (_item_delegate (view (sstep s ev)))) ->
    rendered_for (_item_delegate (view (sstep s ev))) k pm.
Proof.
  intros H k pm. destruct ev as [o i|calc|e calc| | |].
  - rewrite step_Paint. simpl.
    pose proof (paint_item_size scaling_target o i (_item_delegate (view s)))
      as Hs.
    destruct (dict.get (_getCacheKey i (State_Selected o) (_item_delegate (view s)))
                (_pixmap_cache (_item_delegate (view s)))) as [pm0|] eqn:Eg.
    + unfold paint. rewrite Eg. simpl. apply H.
    + destruct (paint_miss_shape scaling_target o i _ Eg)
        as (_ & Hn & Ht & Hsel & Hc & _).
      rewrite Hc. intros Hin. apply (rendered_for_size _ _ _ _ (eq_sym Hs)).
      apply in_set in Hin as [[= -> ->]|Hin].
      * exists o, i. now repeat split.
      * apply H. destruct (dict.len _ >=? _); [|exact Hin].
        rewrite dict_facts.del_all_filter in Hin.
        now apply List.filter_In in Hin as [Hin _].
  - simpl. unfold _updateGridSize, setGridSize.
    destruct (negb (QSize_eqb _ calc)); [intros []|apply H].
  - simpl. unfold resizeEvent. destruct (Z.abs _ >? 50); [intros []|apply H].
  - intros [].
  - simpl. destruct (worker_queue s); apply H.
  - simpl. destruct (ready_queue s) as [|[k0 img] rest]; [apply H|]. simpl.
    destruct (onImageReady_frame k0 img (_item_delegate (view s)))
      as (_ & Hs & Hin).
    intros He. apply (rendered_for_size _ _ _ _ (eq_sym Hs)). now apply H, Hin.
Qed.

Lemma reachable_rendered evs k pm :
  In (k, pm) (_pixmap_cache (_item_delegate (view (srun system_init evs)))) ->
  rendered_for (_item_delegate (view (srun system_init evs))) k pm.
Proof.
  revert k pm.
  apply (run_ind scaling_target scaled
           (fun s => forall k pm,
              In (k, pm) (_pixmap_cache (_item_delegate (view s))) ->
              rendered_for (_item_delegate (view s)) k pm)).
  - intros k pm [].
  - apply step_rendered.
Qed.
End Runs_more.

(** X3. Every job waiting for the worker, in every state the pipeline
    reaches, carries a valid image and a key made of the hash of that
    image's cache key and of an item size; so the worker never takes its
    null-image branch for it, and completes it with the scaled image, or
    with the job's own image when scaling raises. *)
Theorem queued_jobs_carry_valid_images
    (scaling_target : QImage -> QSize -> QSize)
    (scaled : QImage -> QSize -> TransformationMode -> option QImage)
    (evs : list Event) (j : Job) :
  In j (worker_queue (run scaling_target scaled system_init evs)) ->
  isNull (job_image j) = false /\
  (exists sz : QSize,
      job_key j =
        "img_" +:+ Py.str_int (Py.hash_int (cacheKey (job_image j))) +:+ "_" +:+
        Py.str_int (width sz) +:+ "_" +:+ Py.str_int (height sz)) /\
  processImage scaled (job_key j) (job_image j) (job_target j) =
    [(job_key j,
      match scaled (job_image j) (job_target j)
              (transformation_mode (job_target j)) with
      | Some result => result
      | None => job_image j
      end)].
Proof.
  intros Hin.
  assert (H : isNull (job_image j) = false /\
    exists sz : QSize,
      job_key j =
        "img_" +:+ Py.str_int (Py.hash_int (cacheKey (job_image j))) +:+ "_" +:+
        Py.str_int (width sz) +:+ "_" +:+ Py.str_int (height sz)).
  { revert j Hin.
    apply (run_ind scaling_target scaled
      (fun s => forall j, In j (worker_queue s) ->
         isNull (job_image j) = false /\
         exists sz : QSize,
           job_key j =
             "img_" +:+ Py.str_int (Py.hash_int (cacheKey (job_image j)))
             +:+ "_" +:+ Py.str_int (width sz) +:+ "_" +:+
             Py.str_int (height sz))).
    - intros j [].
    - intros s ev IH j. destruct ev as [o i|calc|e calc| | |];
        try (simpl; apply IH).
      + rewrite step_Paint. simpl. intros Hin. apply in_app_or in Hin as [Hin|Hin].
        * now apply IH.
        * destruct (dispatched (snd (paint scaling_target o i
                      (_item_delegate (view s))))) as [j0|] eqn:Ed; [|destruct Hin].
          destruct Hin as [<-|[]].
          destruct (paint_job scaling_target o i _ j0 Ed) as [Hn Hk].
          split; [exact Hn|]. now exists (_item_size (_item_delegate (view s))).
      + simpl. destruct (worker_queue s) as [|j0 rest] eqn:Eq.
        * rewrite Eq. intros [].
        * simpl. intros Hin. apply IH. now right.
      + simpl. destruct (ready_queue s) as [|[k img] rest]; apply IH. }
  destruct H as [Hn Hk]. split; [exact Hn|]. split; [exact Hk|].
  unfold processImage. rewrite Hn. now destruct (scaled _ _ _).
Qed.

Lemma queued_jobs_carry_valid_images_witness :
  let j := mkJob "img_7_450_650" Ex.imageA (mkQSize 487 650) in
  worker_queue (run Ex.target Ex.scale system_init [Paint Ex.cell Ex.itemA]) = [j] /\
  isNull (job_image j) = false.
Proof.
  intros j. split; [reflexivity|].
  apply (queued_jobs_carry_valid_images Ex.target Ex.scale
           [Paint Ex.cell Ex.itemA] j).
  now left.
Defined.

(** X4. Every pixmap in the cache, in every state the pipeline reaches, was
    rendered by a request: its key is that request's key at the delegate's
    present item size, and it carries that request's name, type and
    selection state. No pixmap keyed for an earlier item size survives. *)
Theorem cached_pixmaps_were_rendered_at_current_size
    (scaling_target : QImage -> QSize -> QSize)
    (scaled : QImage -> QSize -> TransformationMode -> option QImage)
    (evs : list Event) (k : string) (pm : QPixmap) :
  let d := _item_delegate (view (run scaling_target scaled system_init evs)) in
  In (k, pm) (_pixmap_cache d) ->
  exists (o : StyleOption) (i : ModelIndex),
    k = _getCacheKey i (State_Selected o) d /\
    px_name pm = NameRole i /\ px_type pm = TypeRole i /\
    px_selected pm = State_Selected o.
Proof. intros d Hin. now apply reachable_rendered. Qed.

Lemma cached_pixmaps_were_rendered_at_current_size_witness :
  let s := run Ex.target Ex.scale system_init
             [Paint Ex.cell Ex.itemA; UpdateGridSize (mkQSize 300 400);
              Paint Ex.cell_selected Ex.itemA] in
  let pm := mkPixmap (LoadingPlaceholder loading_fill) true "A" "B" in
  _pixmap_cache (_item_delegate (view s)) = [("A_B_7_True_300_400", pm)] /\
  exists (o : StyleOption) (i : ModelIndex),
    "A_B_7_True_300_400"
      = _getCacheKey i (State_Selected o) (_item_delegate (view s)) /\
    px_name pm = NameRole i /\ px_type pm = TypeRole i /\
    px_selected pm = State_Selected o.
Proof.
  intros s pm. split; [reflexivity|].
  apply (cached_pixmaps_were_rendered_at_current_size Ex.target Ex.scale
           [Paint Ex.cell Ex.itemA; UpdateGridSize (mkQSize 300 400);
            Paint Ex.cell_selected Ex.itemA] "A_B_7_True_300_400" pm).
  left. reflexivity.
Defined.

(** X5. The delegate's size hint equals the list view's grid size in every
    state the pipeline reaches: the two are only ever changed together, by
    [setGridSize]. *)
Theorem size_hint_is_grid_size
    (scaling_target : QImage -> QSize -> QSize)
    (scaled : QImage -> QSize -> TransformationMode -> option QImage)
    (evs : list Event) :
  let s := run scaling_target scaled system_init evs in
  sizeHint (_item_delegate (view s)) = gridSize (view s).
Proof.
  apply (run_ind scaling_target scaled
           (fun s => sizeHint (_item_delegate (view s)) = gridSize (view s))).
  - reflexivity.
  - apply step_item_size_grid.
Qed.

Lemma paint_hit
    (scaling_target : QImage -> QSize -> QSize)
    (o : StyleOption) (i : ModelIndex) (d : ModelGalleryItemDelegate)
    (pm : QPixmap) :
  dict.get (_getCacheKey i (State_Selected o) d) (_pixmap_cache d) = Some pm ->
  paint scaling_target o i d = (d, mkPainted pm true None).
Proof. intros H. unfold paint. now rewrite H. Qed.

(** X6. A request repeated at once is answered from the cache: whatever
    the first [paint] did, the second is a cache hit that draws the very
    pixmap the first drew, dispatches nothing and leaves the delegate as
    the first left it. *)
Theorem repeated_request_is_a_hit
    (scaling_target : QImage -> QSize -> QSize)
    (o : StyleOption) (i : ModelIndex) (d : ModelGalleryItemDelegate) :
  let d1 := fst (paint scaling_target o i d) in
  let p1 := snd (paint scaling_target o i d) in
  let d2 := fst (paint scaling_target o i d1) in
  let p2 := snd (paint scaling_target o i d1) in
  d2 = d1 /\ cache_hit p2 = true /\ drawn p2 = drawn p1 /\ dispatched p2 = None.
Proof.
  intros d1 p1 d2 p2.
  assert (Hget : dict.get (_getCacheKey i (State_Selected o) d1)
                          (_pixmap_cache d1) = Some (drawn p1)).
  { subst d1 p1.
    rewrite (cache_key_size i (State_Selected o) _ d
               (paint_item_size scaling_target o i d)).
    destruct (dict.get (_getCacheKey i (State_Selected o) d) (_pixmap_cache d))
      as [pm|] eqn:Eg.
    - unfold paint. rewrite Eg. exact Eg.
    - destruct (paint_miss_shape scaling_target o i d Eg)
        as (_ & _ & _ & _ & Hc & _).
      rewrite Hc. apply dict_facts.get_set_same. }
  subst d2 p2. rewrite (paint_hit scaling_target o i d1 _ Hget).
  now repeat split.
Qed.

(** * The fields of a pixmap key, read from its end *)

Module Key_facts.

Lemma append_assoc (a b c : string) : (a +:+ b) +:+ c = a +:+ (b +:+ c).
Proof.
  induction a as [|x a IH]; [reflexivity|].
  change (String x ((a +:+ b) +:+ c) = String x (a +:+ (b +:+ c))).
  now rewrite IH.
Qed.

Lemma append_nil_r (a : string) : a +:+ "" = a.
Proof.
  induction a as [|x a IH]; [reflexivity|].
  change (String x (a +:+ "") = String x a). now rewrite IH.
Qed.

Lemma has_char_append (c : ascii) (a b : string) :
  has_char c (a +:+ b) = has_char c a || has_char c b.
Proof.
  induction a as [|x a IH]; [reflexivity|].
  change (has_char c (String x (a +:+ b)) = has_char c (String x a) || has_char c b).
  simpl. rewrite IH. now rewrite orb_assoc.
Qed.

(** Two strings that end in one character each are equal only if the
    characters and what precedes them are. *)
Lemma append_last_inj (a b : string) (c c' : ascii) :
  a +:+ String c "" = b +:+ String c' "" -> a = b /\ c = c'.
Proof.
  revert b. induction a as [|x a IH]; intros [|y b] H.
  - now injection H as ->.
  - change (String c "" = String y (b +:+ String c' "")) in H.
    injection H as _ H. destruct b; discriminate.
  - change (String x (a +:+ String c "") = String c' "") in H.
    injection H as _ H. destruct a; discriminate.
  - change (String x (a +:+ String c "") = String y (b +:+ String c' "")) in H.
    injection H as -> H. destruct (IH b H) as [-> ->]. now split.
Qed.

(** The text after the last underscore, and the text before it, are
    determined by the whole. *)
Lemma split_last_underscore (a b t1 t2 : string) :
  has_char "_" t1 = false -> has_char "_" t2 = false ->
  a +:+ "_" +:+ t1 = b +:+ "_" +:+ t2 -> a = b /\ t1 = t2.
Proof.
  intros H1 H2. revert b. induction a as [|x a IH]; intros [|y b] H.
  - change (String "_" t1 = String "_" t2) in H. injection H as ->. now split.
  - change (String "_" t1 = String y (b +:+ "_" +:+ t2)) in H.
    injection H as _ ->. rewrite has_char_append in H1.
    apply orb_false_iff in H1 as [_ H1]. discriminate H1.
  - change (String x (a +:+ "_" +:+ t1) = String "_" t2) in H.
    injection H as _ <-. rewrite has_char_append in H2.
    apply orb_false_iff in H2 as [_ H2]. discriminate H2.
  - change (String x (a +:+ "_" +:+ t1) = String y (b +:+ "_" +:+ t2)) in H.
    injection H as -> H. destruct (IH b H) as [-> ->]. now split.
Qed.

(** The rendering of a Boolean at the end of a string determines it. *)
Lemma str_bool_suffix (a b : string) (s1 s2 : bool) :
  a +:+ Py.str_bool s1 = b +:+ Py.str_bool s2 -> s1 = s2.
Proof.
  destruct s1, s2; try reflexivity; simpl; intros H; exfalso.
  - change "True" with ("Tru" +:+ "e") in H.
    change "False" with ("Fals" +:+ "e") in H.
    rewrite <- !append_assoc in H. apply append_last_inj in H as [H _].
    change "Tru" with ("Tr" +:+ "u") in H.
    change "Fals" with ("Fal" +:+ "s") in H.
    rewrite <- !append_assoc in H. now apply append_last_inj in H as [_ [=]].
  - change "True" with ("Tru" +:+ "e") in H.
    change "False" with ("Fals" +:+ "e") in H.
    rewrite <- !append_assoc in H. apply append_last_inj in H as [H _].
    change "Tru" with ("Tr" +:+ "u") in H.
    change "Fals" with ("Fal" +:+ "s") in H.
    rewrite <- !append_assoc in H. now apply append_last_inj in H as [_ [=]].
Qed.

(** The characters of a rendered integer are digits and the minus sign. *)
Lemma pretty_N_go_chars (c : ascii) (x : N) (s : string) :
  has_char c (pretty_N_go x s) = true ->
  has_char c "0123456789" = true \/ has_char c s = true.
Proof.
  revert s. induction (N.lt_wf_0 x) as [x _ IH]; intros s.
  assert (x = 0 \/ 0 < x)%N as [->|Hpos] by lia.
  - rewrite pretty_N_go_0. now right.
  - rewrite pretty_N_go_step by exact Hpos. intros H.
    apply IH in H; [|now apply N.div_lt].
    destruct H as [H|H]; [now left|].
    simpl in H. apply orb_true_iff in H as [H|H]; [left|now right].
    apply Ascii.eqb_eq in H. subst c.
    unfold pretty_N_char. repeat case_match; reflexivity.
Qed.

Lemma str_int_chars (c : ascii) (z : Z) :
  has_char c (Py.str_int z) = true -> has_char c "-0123456789" = true.
Proof.
  unfold Py.str_int, pretty, pretty_Z.
  assert (Hpos : forall p : positive,
            has_char c (pretty p) = true -> has_char c "0123456789" = true).
  { intros p. unfold pretty, pretty_positive, pretty, pretty_N.
    destruct (decide (N.pos p = 0%N)); [discriminate|].
    intros H. apply pretty_N_go_chars in H as [H|H]; [exact H|discriminate]. }
  destruct z as [|p|p].
  - intros H. simpl in H. apply orb_true_iff in H as [H|H]; [|discriminate].
    apply Ascii.eqb_eq in H. now subst c.
  - intros H. apply Hpos in H. simpl in *. rewrite H. apply orb_true_r.
  - rewrite has_char_append. intros H. apply orb_true_iff in H as [H|H].
    + simpl in H. apply orb_true_iff in H as [H|H]; [|discriminate].
      apply Ascii.eqb_eq in H. now subst c.
    + apply Hpos in H. simpl in *. rewrite H. apply orb_true_r.
Qed.

Lemma str_int_no_underscore (z : Z) : has_char "_" (Py.str_int z) = false.
Proof.
  destruct (has_char "_" (Py.str_int z)) eqn:E; [|reflexivity].
  apply str_int_chars in E. discriminate E.
Qed.

(** An image key at the end of a string, after an underscore, determines
    it: the fingerprint of a valid image has no underscore, and
    ["no_image"] ends in a word no integer is rendered as. *)
Lemma image_key_suffix (a b : string) (im1 im2 : option QImage) :
  a +:+ "_" +:+ image_key im1 = b +:+ "_" +:+ image_key im2 ->
  a = b /\ image_key im1 = image_key im2.
Proof.
  assert (Hcase : forall im,
            (exists z, image_key im = Py.str_int z) \/ image_key im = "no_image").
  { intros [i|]; [|now right]. unfold image_key.
    destruct (isNull i); [now right | left; eauto]. }
  assert (Hmix : forall a b z,
            a +:+ "_" +:+ Py.str_int z = b +:+ "_" +:+ "no_image" -> False).
  { intros a' b' z H0.
    assert (H : a' +:+ "_" +:+ Py.str_int z
                = (b' +:+ "_no") +:+ "_" +:+ "image")
      by (rewrite append_assoc; exact H0).
    apply split_last_underscore in H as [_ H];
      [|apply str_int_no_underscore | reflexivity].
    assert (Hi : has_char "i" (Py.str_int z) = true) by now rewrite H.
    apply str_int_chars in Hi. discriminate Hi. }
  destruct (Hcase im1) as [[z1 ->]| ->], (Hcase im2) as [[z2 ->]| ->]; intros H.
  - apply split_last_underscore in H; [exact H| |]; apply str_int_no_underscore.
  - exfalso. now apply (Hmix a b z1).
  - exfalso. symmetry in H. now apply (Hmix b a z2).
  - split; [|reflexivity].
    change (a +:+ ("_" +:+ "no_image") = b +:+ ("_" +:+ "no_image")) in H.
    now apply Py_facts.append_inv_tail in H.
Qed.

(** Two pixmap keys at one item size are equal only if they agree on the
    selection flag, the image key and the text before it. *)
Lemma cache_key_fields (i1 i2 : ModelIndex) (s1 s2 : bool)
    (d : ModelGalleryItemDelegate) :
  _getCacheKey i1 s1 d = _getCacheKey i2 s2 d ->
  s1 = s2 /\
  image_key (DecorationRole i1) = image_key (DecorationRole i2) /\
  NameRole i1 +:+ "_" +:+ TypeRole i1 = NameRole i2 +:+ "_" +:+ TypeRole i2.
Proof.
  unfold _getCacheKey.
  set (W := Py.str_int (width (_item_size d))).
  set (H := Py.str_int (height (_item_size d))).
  set (T := "_" +:+ W +:+ "_" +:+ H).
  intros E.
  assert (E1 : (NameRole i1 +:+ "_" +:+ TypeRole i1 +:+ "_" +:+
                image_key (DecorationRole i1) +:+ "_") +:+ Py.str_bool s1
             = (NameRole i2 +:+ "_" +:+ TypeRole i2 +:+ "_" +:+
                image_key (DecorationRole i2) +:+ "_") +:+ Py.str_bool s2).
  { apply (Py_facts.append_inv_tail _ _ T). subst T.
    rewrite !append_assoc. exact E. }
  assert (Hs : s1 = s2) by exact (str_bool_suffix _ _ _ _ E1).
  subst s2. split; [reflexivity|].
  apply Py_facts.append_inv_tail in E1.
  assert (E2 : (NameRole i1 +:+ "_" +:+ TypeRole i1) +:+ "_" +:+
               image_key (DecorationRole i1)
             = (NameRole i2 +:+ "_" +:+ TypeRole i2) +:+ "_" +:+
               image_key (DecorationRole i2)).
  { apply (Py_facts.append_inv_tail _ _ "_"). rewrite !append_assoc.
    exact E1. }
  apply image_key_suffix in E2 as [E3 E4]. now split.
Qed.

End Key_facts.

(** * What a request draws, and what the image cache keeps *)

(** X7. In every state the pipeline reaches, whether a request is answered
    from the pixmap cache or rendered, the pixmap drawn has the requested
    selection state, and its name and type joined by an underscore read as
    the requested item's do: a cache hit can confuse two items only by
    where the name ends and the type begins. *)
Theorem drawn_pixmap_has_requested_selection
    (scaling_target : QImage -> QSize -> QSize)
    (scaled : QImage -> QSize -> TransformationMode -> option QImage)
    (evs : list Event) (o : StyleOption) (i : ModelIndex) :
  let d := _item_delegate (view (run scaling_target scaled system_init evs)) in
  let p := snd (paint scaling_target o i d) in
  px_selected (drawn p) = State_Selected o /\
  px_name (drawn p) +:+ "_" +:+ px_type (drawn p)
    = NameRole i +:+ "_" +:+ TypeRole i.
Proof.
  intros d p. subst p.
  destruct (dict.get (_getCacheKey i (State_Selected o) d) (_pixmap_cache d))
    as [pm|] eqn:Eg.
  - rewrite (paint_hit scaling_target o i d pm Eg). simpl.
    destruct (reachable_rendered scaling_target scaled evs _ pm (get_in _ _ _ Eg))
      as (o0 & i0 & Hk & Hn & Ht & Hs).
    fold d in Hk.
    apply Key_facts.cache_key_fields in Hk as (Hsel & _ & Hnt).
    rewrite Hn, Ht, Hs. now split.
  - destruct (paint_miss_shape scaling_target o i d Eg)
      as (_ & Hn & Ht & Hs & _).
    rewrite Hn, Ht, Hs. now split.
Qed.

(** X8. A completion for an image-cache key that arrives while the image
    cache is below its bound is stored under that key, and from then on a
    request that derives the key and misses the pixmap cache dispatches
    nothing and is built from the processed image (an image equal to it),
    the widget holding no scaled image of its own. *)
Theorem stored_completion_is_used
    (i0 : ModelIndex) (d0 d : ModelGalleryItemDelegate) (img : QImage) :
  let K := _getImageCacheKey i0 d0 in
  dict.len (_image_cache d) < _max_image_cache_size d ->
  isNull img = false ->
  _scaled_image_cache (_widget d) = None ->
  exists d',
    _onImageReady K img d = Normal d' /\
    dict.get K (_image_cache d') = Some img /\
    forall (scaling_target : QImage -> QSize -> QSize)
           (o : StyleOption) (i : ModelIndex),
      _getImageCacheKey i d' = K ->
      dict.get (_getCacheKey i (State_Selected o) d') (_pixmap_cache d') = None ->
      let p := snd (paint scaling_target o i d') in
      cache_hit p = false /\ dispatched p = None /\
      exists shown, px_image (drawn p) = OriginalImage shown /\
                    QImage_eqb shown img = true.
Proof.
  intros K Hlen Hn Hs. subst K.
  destruct (image_key_prefix i0 d0) as [rest ->].
  destruct (onImageReady_normal rest img d)
    as (d' & E & _ & _ & _ & Hic & _ & _).
  exists d'. split; [exact E|].
  assert (Hget : dict.get ("img_" +:+ rest) (_image_cache d') = Some img).
  { rewrite Hic.
    destruct (Z.ltb_spec (dict.len (_image_cache d)) (_max_image_cache_size d));
      [apply dict_facts.get_set_same | lia]. }
  split; [exact Hget|].
  intros scaling_target o i HK Hmiss p. subst p.
  assert (Hw : _widget d' = _widget d).
  { pose proof (onImageReady_frame ("img_" +:+ rest) img d) as (Hw & _).
    now rewrite E in Hw. }
  unfold paint. rewrite Hmiss. unfold load_image. rewrite HK, Hget. simpl.
  split; [reflexivity|]. split; [reflexivity|].
  apply shows_image_set; [exact Hn|]. simpl. now rewrite Hw.
Qed.

Lemma stored_completion_is_used_witness :
  let d := fst (paint Ex.target Ex.cell Ex.itemA __init__) in
  let processed := mkQImage 1007 (Some (mkBitmap 487 650 1)) in
  exists d',
    _onImageReady "img_7_450_650" processed d = Normal d' /\
    dict.get "img_7_450_650" (_image_cache d') = Some processed /\
    px_image (drawn (snd (paint Ex.target Ex.cell_selected Ex.itemA d')))
      = OriginalImage processed.
Proof.
  intros d processed.
  destruct (stored_completion_is_used Ex.itemA __init__ d processed)
    as (d' & E & Hg & Hp); [vm_compute; reflexivity | reflexivity | reflexivity |].
  exists d'. split; [exact E|]. split; [exact Hg|].
  vm_compute in E. injection E as <-. reflexivity.
Defined.

(** X9. The processed-image cache has no eviction: requests, the worker and
    the delivery of completions never remove a key from it, and once it
    holds its maximum number of entries they leave it exactly as it is;
    only [setItemSize] and [clearCaches] empty it. *)
Theorem image_cache_never_evicts
    (scaling_target : QImage -> QSize -> QSize)
    (scaled : QImage -> QSize -> TransformationMode -> option QImage)
    (s : System) (ev : Event) :
  pipeline_event ev = true ->
  let d := _item_delegate (view s) in
  let d' := _item_delegate (view (step scaling_target scaled s ev)) in
  (forall k, dict.mem k (_image_cache d) = true ->
             dict.mem k (_image_cache d') = true) /\
  (_max_image_cache_size d <= dict.len (_image_cache d) ->
   _image_cache d' = _image_cache d).
Proof.
  intros Hev d d'. subst d'.
  destruct ev as [o i|calc|e calc| | |]; try discriminate Hev.
  - rewrite step_Paint. simpl. rewrite paint_image_cache. now split.
  - simpl. destruct (worker_queue s); now split.
  - simpl. destruct (ready_queue s) as [|[k0 img] rest]; [now split|]. simpl.
    rewrite onImageReady_image_cache. fold d.
    destruct (Z.ltb_spec (dict.len (_image_cache d)) (_max_image_cache_size d));
      [|now split].
    split; [|lia]. intros k Hk.
    destruct (String.eqb_spec k k0) as [->|Hne];
      [apply dict_facts.mem_set_same|].
    now rewrite dict_facts.mem_set_other.
Qed.

Lemma image_cache_never_evicts_witness :
  let d := _item_delegate (view Ex.system100) in
  let d' := _item_delegate (view (step Ex.target Ex.scale Ex.system100 ImageReady)) in
  dict.len (_image_cache d) = 100 /\ ready_queue Ex.system100 <> [] /\
  _image_cache d' = _image_cache d.
Proof.
  intros d d'. split; [reflexivity|]. split; [discriminate|].
  apply (image_cache_never_evicts Ex.target Ex.scale Ex.system100 ImageReady
           eq_refl).
  vm_compute. discriminate.
Defined.

(** * The list view: grid, visible range, wheel *)

Module GalleryList_facts.
Import GalleryList.



(** X11. When the visible range reaches the end of the model (its end is
    the row count, as it is whenever fewer rows than the buffer follow the
    bottom row), [_updateVisibleItems] asks for no repaint: the index of
    the end row is invalid. The range it remembers is updated all the
    same. *)
Theorem no_repaint_when_range_reaches_end
    (top bottom : option Z) (st : State) (rows : Z) :
  model st = Some rows ->
  snd (_getVisibleRange top bottom st) = rows ->
  let result := _updateVisibleItems top bottom st in
  snd result = None /\
  (_getVisibleRange top bottom st <> _last_visible_range st ->
   _last_visible_range (fst result) = _getVisibleRange top bottom st).
Proof.
  intros Hm Hend result. subst result. unfold _updateVisibleItems.
  cbv zeta. rewrite Hm, Hend.
  assert (Hidx : index rows rows = None).
  { unfold index. destruct (Z.ltb_spec rows rows); [lia|].
    now rewrite andb_false_r. }
  rewrite Hidx.
  destruct (negb _) eqn:Echg.
  - split.
    + simpl. now destruct (index rows (fst (_getVisibleRange top bottom st))).
    + intros _. now destruct (index rows (fst (_getVisibleRange top bottom st))).
  - split; [reflexivity|]. intros Hne. exfalso. apply Hne.
    apply negb_false_iff, andb_true_iff in Echg as [E1 E2].
    apply Z.eqb_eq in E1, E2.
    destruct (_getVisibleRange top bottom st), (_last_visible_range st).
    simpl in *. congruence.
Qed.

Lemma no_repaint_when_range_reaches_end_witness :
  let st := setModel (Some 8) initial in
  _getVisibleRange (Some 0) (Some 5) st = (0, 8) /\
  snd (_updateVisibleItems (Some 0) (Some 5) st) = None /\
  _last_visible_range (fst (_updateVisibleItems (Some 0) (Some 5) st)) = (0, 8).
Proof.
  intros st.
  destruct (no_repaint_when_range_reaches_end (Some 0) (Some 5) st 8
              eq_refl eq_refl) as [H1 H2].
  split; [reflexivity|]. split; [exact H1|]. apply H2. discriminate.
Defined.

Section Grid_facts.
Variable grid_formula : Z -> Z -> QSize.

(** A grid update that succeeds leaves the view's grid size equal to the
    size it has cached. *)
Lemma updateGridSize_syncs_cache viewport_width st st' :
  _updateGridSize' grid_formula viewport_width st = Done st' ->
  (isEmpty (_cached_grid_size st) = false ->
   gridSize (list_view st) = _cached_grid_size st) ->
  gridSize (list_view st') = _cached_grid_size st'.
Proof.
  unfold _updateGridSize', calculateGridSize. intros H Hsync.
  destruct ((Z.abs (viewport_width - _cached_viewport_width st) <? 10)
            && negb (isEmpty (_cached_grid_size st))) eqn:Ehit.
  - injection H as <-. simpl. apply andb_true_iff in Ehit as [_ Hne].
    apply negb_true_iff in Hne. unfold setGridSize.
    destruct (negb (QSize_eqb _ _)); [reflexivity | now apply Hsync].
  - destruct (_items_per_row st =? 0); [discriminate|].
    injection H as <-. simpl. unfold setGridSize.
    destruct (negb (QSize_eqb (gridSize (list_view st))
                (grid_formula viewport_width (_items_per_row st)))) eqn:E;
      [reflexivity|].
    apply negb_false_iff in E. unfold QSize_eqb in E.
    apply andb_true_iff in E as [E1 E2]. apply Z.eqb_eq in E1, E2.
    destruct (gridSize (list_view st)), (grid_formula _ _). simpl in *.
    congruence.
Qed.

(** X12. Changing the number of items per row has no effect on the grid
    while the viewport width is within 10 pixels of the width of the last
    calculation: [calculateGridSize] answers from its cache, which does not
    depend on the number of items, so the grid size, the delegate and its
    caches stay as they are and only the stored number changes. *)
Theorem items_per_row_change_keeps_cached_grid
    (items_per_row viewport_width : Z) (st : State) :
  _items_per_row st <> items_per_row ->
  Z.abs (viewport_width - _cached_viewport_width st) < 10 ->
  isEmpty (_cached_grid_size st) = false ->
  gridSize (list_view st) = _cached_grid_size st ->
  setItemsPerRow grid_formula items_per_row viewport_width st =
    Done {| list_view := list_view st;
            _items_per_row := items_per_row;
            _cached_grid_size := _cached_grid_size st;
            _cached_viewport_width := _cached_viewport_width st;
            _last_visible_range := _last_visible_range st;
            model := model st |}.
Proof.
  intros Hne Hw Hnonempty Hsync. unfold setItemsPerRow.
  destruct (Z.eqb_spec (_items_per_row st) items_per_row); [contradiction|].
  simpl. unfold _updateGridSize', calculateGridSize. simpl.
  destruct (Z.ltb_spec (Z.abs (viewport_width - _cached_viewport_width st)) 10);
    [|lia].
  rewrite Hnonempty. simpl. unfold setGridSize. rewrite <- Hsync.
  assert (E : QSize_eqb (gridSize (list_view st)) (gridSize (list_view st)) = true)
    by (unfold QSize_eqb; now rewrite !Z.eqb_refl).
  now rewrite E.
Qed.

(** X13. [updateItemsPerRow] accepts the counts 1 to 10 only: a sequence of
    calls, whatever the counts and viewport widths, never ends in the
    [ZeroDivisionError] of [calculateGridSize] and keeps the number of
    items per row between 1 and 10; a count outside the range changes
    nothing. *)
Theorem updateItemsPerRow_keeps_count_in_range
    (calls : list (Z * Z)) (st : State) :
  1 <= _items_per_row st <= 10 ->
  (exists st', updates grid_formula calls st = Done st' /\
               1 <= _items_per_row st' <= 10) /\
  (forall count viewport_width,
      count < 1 \/ 10 < count ->
      updateItemsPerRow grid_formula count viewport_width st = Done st).
Proof.
  intros Hr. split.
  - revert st Hr. induction calls as [|[count vw] calls IH]; intros st Hr; simpl.
    + eauto.
    + assert (H : exists st1,
                updateItemsPerRow grid_formula count vw st = Done st1 /\
                1 <= _items_per_row st1 <= 10).
      { unfold updateItemsPerRow.
        destruct ((1 <=? count) && (count <=? 10)) eqn:Ec; [|eauto].
        apply andb_true_iff in Ec as [E1 E2].
        apply Z.leb_le in E1, E2.
        unfold setItemsPerRow. destruct (negb (_ =? count)); [|eauto].
        unfold _updateGridSize', calculateGridSize. simpl.
        destruct (_ && _); [eexists; split; [reflexivity|simpl; lia]|].
        destruct (Z.eqb_spec count 0); [lia|].
        eexists; split; [reflexivity|simpl; lia]. }
      destruct H as (st1 & -> & Hr1). now apply IH.
  - intros count vw Hout. unfold updateItemsPerRow.
    destruct (Z.leb_spec 1 count), (Z.leb_spec count 10); simpl;
      reflexivity || lia.
Qed.

(** X14. The list view's own [setItemsPerRow] has no such guard: a change
    to 0 items per row, unless the grid size is answered from the cache,
    raises [ZeroDivisionError], and the 0 has been stored by then. *)
Theorem setItemsPerRow_zero_raises (viewport_width : Z) (st : State) :
  _items_per_row st <> 0 ->
  10 <= Z.abs (viewport_width - _cached_viewport_width st)
  \/ isEmpty (_cached_grid_size st) = true ->
  exists st',
    setItemsPerRow grid_formula 0 viewport_width st = ZeroDivisionError st' /\
    _items_per_row st' = 0 /\ list_view st' = list_view st.
Proof.
  intros Hne Hmiss. unfold setItemsPerRow.
  destruct (Z.eqb_spec (_items_per_row st) 0); [contradiction|]. simpl.
  unfold _updateGridSize', calculateGridSize. simpl.
  assert (E : (Z.abs (viewport_width - _cached_viewport_width st) <? 10)
              && negb (isEmpty (_cached_grid_size st)) = false).
  { destruct Hmiss as [H| ->]; [|apply andb_false_r].
    destruct (Z.ltb_spec (Z.abs (viewport_width - _cached_viewport_width st)) 10);
      [lia | reflexivity]. }
  rewrite E. eexists. split; [reflexivity|]. now split.
Qed.
End Grid_facts.

Lemma items_per_row_change_keeps_cached_grid_witness :
  let formula := fun vw n : Z => mkQSize (vw / n) (vw / n * 3 / 2) in
  let st := state_of (setItemsPerRow formula 4 1200 initial) in
  gridSize (list_view st) = mkQSize 300 450 /\
  exists st', setItemsPerRow formula 2 1205 st = Done st' /\
              _items_per_row st' = 2 /\
              gridSize (list_view st') = mkQSize 300 450.
Proof.
  intros formula st. split; [reflexivity|].
  eexists. split; [|split].
  - apply (items_per_row_change_keeps_cached_grid formula 2 1205 st);
      [discriminate | simpl; lia | reflexivity | reflexivity].
  - reflexivity.
  - reflexivity.
Defined.

Lemma updateItemsPerRow_keeps_count_in_range_witness :
  let formula := fun vw n : Z => mkQSize (vw / n) (vw / n * 3 / 2) in
  exists st',
    updates formula [(0, 1200); (3, 1200); (11, 900); (10, 900)] initial
      = Done st' /\
    1 <= _items_per_row st' <= 10.
Proof.
  intros formula.
  apply (updateItemsPerRow_keeps_count_in_range formula
           [(0, 1200); (3, 1200); (11, 900); (10, 900)] initial).
  simpl. lia.
Defined.

Lemma setItemsPerRow_zero_raises_witness :
  let formula := fun vw n : Z => mkQSize (vw / n) (vw / n * 3 / 2) in
  exists st',
    setItemsPerRow formula 0 1200 initial = ZeroDivisionError st' /\
    _items_per_row st' = 0 /\ list_view st' = list_view initial.
Proof.
  intros formula.
  apply (setItemsPerRow_zero_raises formula 1200 initial);
    [discriminate | right; reflexivity].
Defined.

End GalleryList_facts.

(** * The wheel *)

Module Wheel_facts.
Import GalleryList.

Lemma inject_Z_sub (a b : Z) :
  Qeq (Qminus (inject_Z a) (inject_Z b)) (inject_Z (a - b)).
Proof. unfold Qeq, Qminus, Qplus, Qopp, inject_Z. simpl. lia. Qed.

(** Clamping on the rationals agrees with clamping on the integers. *)
Lemma clamp_inject_Z (maximum x : Z) (y : Q) :
  Qeq y (inject_Z x) ->
  Qeq (Qmax (inject_Z 0) (Qmin (inject_Z maximum) y))
      (inject_Z (Z.max 0 (Z.min maximum x))).
Proof.
  intros Hy.
  destruct (Q.min_spec (inject_Z maximum) y) as [[H1 E1]|[H1 E1]];
    destruct (Q.max_spec (inject_Z 0) (Qmin (inject_Z maximum) y))
      as [[H2 E2]|[H2 E2]];
    rewrite E2; rewrite E1 in H2; rewrite Hy in H1.
  all: try rewrite E1; try rewrite Hy in H2; try rewrite Hy.
  all: try (rewrite <- Zlt_Qlt in H1); try (rewrite <- Zle_Qle in H1);
       try (rewrite <- Zlt_Qlt in H2); try (rewrite <- Zle_Qle in H2).
  all: rewrite inject_Z_injective.
  all: lia.
Qed.

(** The amount scrolled: an eighth of the wheel delta, rounded down, and
    half as much again for a delta beyond 240. *)
Lemma amount_threshold (delta : Z) :
  Qle_bool (inject_Z 100)
    (Qabs (if Z.abs delta >? 240
           then Qmult (inject_Z (delta / 8)) (3 # 2)
           else inject_Z (delta / 8))) = true
  <-> 536 <= delta \/ delta <= -529.
Proof.
  rewrite Qle_bool_iff.
  assert (Hd : delta = 8 * (delta / 8) + delta mod 8) by (apply Z.div_mod; lia).
  assert (Hm : 0 <= delta mod 8 < 8) by (apply Z.mod_pos_bound; lia).
  revert Hd Hm. generalize (delta / 8) (delta mod 8). intros n r Hd Hm.
  destruct (Z.gtb_spec (Z.abs delta) 240) as [Hfast|Hslow];
    unfold Qle, Qabs, Qmult, inject_Z; simpl;
    change (Z.pos (1 * 2)) with 2; lia.
Qed.

(** X15. [wheelEvent] never asks for a scroll position outside the scroll
    bar's range; a wheel delta of at most 240 in size scrolls at once, by
    an eighth of the delta rounded down; and the scroll is animated exactly
    for deltas from 536 upwards and from -529 downwards, the two limits
    differing because the eighth is rounded down, not towards zero. *)
Theorem wheel_scroll_is_clamped (delta current_value maximum : Z) :
  0 <= maximum ->
  let action := wheelEvent delta current_value maximum in
  (Qle (inject_Z 0) (target_value action) /\
   Qle (target_value action) (inject_Z maximum)) /\
  (Z.abs delta <= 240 ->
   exists v, action = SetValue v /\
             Qeq v (inject_Z (Z.max 0 (Z.min maximum (current_value - delta / 8))))) /\
  (animated action = true <-> 536 <= delta \/ delta <= -529).
Proof.
  intros Hmax action. subst action. unfold wheelEvent.
  set (amount := if Z.abs delta >? 240
                 then Qmult (inject_Z (delta / 8)) (3 # 2)
                 else inject_Z (delta / 8)).
  set (new_value := Qmax (inject_Z 0)
         (Qmin (inject_Z maximum) (Qminus (inject_Z current_value) amount))).
  assert (Hclamp : Qle (inject_Z 0) new_value /\ Qle new_value (inject_Z maximum)).
  { split; [apply Q.le_max_l|].
    apply Q.max_lub; [now rewrite <- Zle_Qle | apply Q.le_min_l]. }
  pose proof (amount_threshold delta) as Hthr. fold amount in Hthr.
  split; [|split].
  - now destruct (Qle_bool (inject_Z 100) (Qabs amount)).
  - intros Hslow.
    destruct (Qle_bool (inject_Z 100) (Qabs amount)) eqn:E.
    + pose proof (proj1 Hthr eq_refl). lia.
    + exists new_value. split; [reflexivity|]. subst new_value amount.
      destruct (Z.gtb_spec (Z.abs delta) 240); [lia|].
      apply clamp_inject_Z, inject_Z_sub.
  - destruct (Qle_bool (inject_Z 100) (Qabs amount)) eqn:E; simpl.
    + split; [intros _; now apply Hthr | reflexivity].
    + split; [discriminate|]. intros H. now apply Hthr in H.
Qed.

Lemma wheel_scroll_is_clamped_witness :
  wheelEvent 120 10 1000 = SetValue (inject_Z 0) /\
  animated (wheelEvent 535 1000 5000) = false /\
  animated (wheelEvent (-529) 1000 5000) = true /\
  Qle (target_value (wheelEvent (-529) 1000 5000)) (inject_Z 5000).
Proof.
  split; [reflexivity|]. split; [reflexivity|]. split; [reflexivity|].
  apply (wheel_scroll_is_clamped (-529) 1000 5000). lia.
Defined.

End Wheel_facts.

(** * What a completion removes from the pixmap cache *)

Lemma existsb_filter_keys {V} (f : string -> bool) (d : Dict V) (e : string * V) :
  In e d ->
  existsb (String.eqb (fst e)) (List.filter f (dict.keys d)) = f (fst e).
Proof.
  intros Hin. destruct (f (fst e)) eqn:Ef.
  - apply existsb_exists. exists (fst e). split; [|apply String.eqb_refl].
    apply List.filter_In. split; [|exact Ef].
    unfold dict.keys. now apply in_map.
  - destruct (existsb _ _) eqn:Ex; [|reflexivity].
    apply existsb_exists in Ex as (k & Hk & Heq).
    apply String.eqb_eq in Heq. subst k.
    apply List.filter_In in Hk as [_ Hk]. congruence.
Qed.

(** X16. The completion handler deletes from the pixmap cache exactly the
    entries whose key contains, anywhere in it, the text that follows
    ["img_"] in the completion's key, and keeps all other entries in their
    order. *)
Theorem completion_removes_keys_containing_fragment
    (fragment : string) (img : QImage) (d : ModelGalleryItemDelegate) :
  let d' := delegate_of (_onImageReady ("img_" +:+ fragment) img d) in
  _pixmap_cache d' =
    List.filter (fun e => negb (Py.contains fragment (fst e))) (_pixmap_cache d).
Proof.
  intros d'. subst d'.
  destruct (onImageReady_normal fragment img d)
    as (d1 & -> & _ & _ & _ & _ & Hp & _).
  simpl. rewrite Hp, dict_facts.del_all_filter.
  apply List.filter_ext_in. intros e He.
  now rewrite (existsb_filter_keys (fun k => Py.contains fragment k)).
Qed.
